(** * Verification of the text-analysis core of [app.py]

    The development embeds the ten feature extractors and the scoring
    pipeline [analyze_text] of [src/app.py] and proves the properties of
    the specification about them.

    Modelling decisions.
    - A Python [str] is a list of Unicode code points ([N]).  String
      literals of the source are written as Rocq strings and decoded from
      UTF-8, so that the vocabularies read as they do in the source.
    - The Unicode tables behind [str.lower], whitespace ([str.split],
      [str.strip]) and [str.isupper] are not part of the repository: they
      are section variables, and every theorem holds whatever they are.
      [latin_lower], [latin_isspace] and [latin_isupper] give the tables on
      Basic Latin, for running the definitions on concrete texts.
    - A Python [int] is a [Z].  A Python [float] is an exact rational [Q]:
      rounding of binary64 arithmetic is not modelled, so equalities between
      scores are equalities of rationals ([==]).
    - Operations that can raise ([/], indexing) return in the error monad
      [result]; code without such operations is a plain function.
    - The dictionaries and lists that [analyze_text] creates and returns
      are also modelled as objects in a store ([analyze_text_st]), for the
      properties about state across calls. *)

From Stdlib Require Import String Ascii Bool.
From Stdlib Require Import List ZArith NArith QArith Qminmax Lqa Lia.
Import ListNotations.

Set Implicit Arguments.

(** ** Python strings *)

Definition char := N.
Definition str := list char.

(** Decoding of a UTF-8 byte sequence into code points (well-formed input;
    a truncated sequence is dropped). *)
Fixpoint utf8_decode (bs : list N) : str :=
  match bs with
  | [] => []
  | b0 :: r0 =>
    if (b0 <? 128)%N then b0 :: utf8_decode r0
    else match r0 with
    | [] => []
    | b1 :: r1 =>
      if (b0 <? 224)%N then
        ((b0 - 192) * 64 + (b1 - 128))%N :: utf8_decode r1
      else match r1 with
      | [] => []
      | b2 :: r2 =>
        if (b0 <? 240)%N then
          ((b0 - 224) * 4096 + (b1 - 128) * 64 + (b2 - 128))%N
            :: utf8_decode r2
        else match r2 with
        | [] => []
        | b3 :: r3 =>
          ((b0 - 240) * 262144 + (b1 - 128) * 4096
            + (b2 - 128) * 64 + (b3 - 128))%N :: utf8_decode r3
        end
      end
    end
  end.

(** A string literal of the source. *)
Definition lit (s : string) : str :=
  utf8_decode (map N_of_ascii (list_ascii_of_string s)).

(** [len(x)] *)
Definition len {A} (l : list A) : Z := Z.of_nat (length l).

Fixpoint str_eqb (a b : str) : bool :=
  match a, b with
  | [], [] => true
  | x :: a', y :: b' => (x =? y)%N && str_eqb a' b'
  | _, _ => false
  end.

(** [s.startswith(sub)] *)
Fixpoint startswith (sub s : str) : bool :=
  match sub, s with
  | [], _ => true
  | x :: sub', y :: s' => (x =? y)%N && startswith sub' s'
  | _ :: _, [] => false
  end.

(** [sub in s] *)
Fixpoint contains (sub s : str) : bool :=
  startswith sub s ||
  match s with
  | [] => false
  | _ :: s' => contains sub s'
  end.

(** [s.count(sub)] for a non-empty [sub]: occurrences found scanning
    left to right, the scan resuming after each occurrence.  [skip] is the
    number of characters of the last occurrence still to be passed. *)
Fixpoint count_from (sub : str) (skip : nat) (s : str) : Z :=
  match s with
  | [] => 0
  | _ :: s' =>
    match skip with
    | S k => count_from sub k s'
    | O =>
      if startswith sub s
      then 1 + count_from sub (pred (length sub)) s'
      else count_from sub 0 s'
    end
  end.

Definition count (s sub : str) : Z :=
  match sub with
  | [] => len s + 1
  | _ :: _ => count_from sub 0 s
  end.

(** [s.split(sep)] for a non-empty separator: every occurrence found
    scanning left to right splits, empty pieces are kept, and the result is
    never empty.  [skip] is as in [count_from]. *)
Fixpoint split_on_aux (sep : str) (skip : nat) (cur : str) (s : str)
  : list str :=
  match s with
  | [] => [rev cur]
  | c :: s' =>
    match skip with
    | S k => split_on_aux sep k cur s'
    | O =>
      if startswith sep s
      then rev cur :: split_on_aux sep (pred (length sep)) [] s'
      else split_on_aux sep 0 (c :: cur) s'
    end
  end.

Definition split_on (sep : str) (s : str) : list str :=
  split_on_aux sep 0 [] s.

(** [sep.join(l)] *)
Fixpoint join (sep : str) (l : list str) : str :=
  match l with
  | [] => []
  | [x] => x
  | x :: l' => x ++ sep ++ join sep l'
  end.

(** [l[i:j]] for [0 <= i] and [0 <= j]; a slice never raises. *)
Definition slice {A} (l : list A) (i j : Z) : list A :=
  firstn (Z.to_nat (j - i)) (skipn (Z.to_nat i) l).

(** [range(n)] *)
Definition range (n : Z) : list Z := map Z.of_nat (seq 0 (Z.to_nat n)).

(** [sum(l)] over ints and over floats. *)
Definition sumZ (l : list Z) : Z := fold_left Z.add l 0%Z.
Definition sumQ (l : list Q) : Q := fold_left Qplus l 0%Q.

(** ** Dictionaries

    A [dict] keeps its keys in insertion order; assigning to a key that is
    present keeps its position. *)
Definition dict (V : Type) := list (str * V).

Fixpoint dict_get {V} (d : dict V) (k : str) (default : V) : V :=
  match d with
  | [] => default
  | (k', v) :: d' => if str_eqb k' k then v else dict_get d' k default
  end.

Fixpoint dict_set {V} (d : dict V) (k : str) (v : V) : dict V :=
  match d with
  | [] => [(k, v)]
  | (k', v') :: d' =>
    if str_eqb k' k then (k', v) :: d' else (k', v') :: dict_set d' k v
  end.

Definition values {V} (d : dict V) : list V := map snd d.

(** ** Exceptions *)

Inductive exn : Set :=
| ZeroDivisionError
| IndexError
| NanValue.

Inductive result (A : Type) : Type :=
| Ok (a : A)
| Raise (e : exn).

Arguments Ok {A} a.
Arguments Raise {A} e.

Definition bind {A B} (m : result A) (k : A -> result B) : result B :=
  match m with
  | Ok a => k a
  | Raise e => Raise e
  end.

Notation "x <- m ;; k" := (bind m (fun x => k))
  (at level 61, m at next level, right associativity).
Notation "' p <- m ;; k" := (bind m (fun x => match x with p => k end))
  (at level 61, p pattern, m at next level, right associativity).

(** ** Floats as rationals *)

Open Scope Q_scope.

Definition Qltb (x y : Q) : bool := negb (Qle_bool y x).
Definition Qgtb (x y : Q) : bool := Qltb y x.

(** [a / b]: raises [ZeroDivisionError] when [b] is zero. *)
Definition truediv (a b : Q) : result Q :=
  if Qeq_bool b 0 then Raise ZeroDivisionError else Ok (a / b).

(** [s[i]] *)
Definition index {A} (l : list A) (i : nat) : result A :=
  match nth_error l i with
  | Some x => Ok x
  | None => Raise IndexError
  end.

Definition int (z : Z) : Q := inject_Z z.

(** A computation returns a float of the given value. *)
Definition yields (m : result Q) (v : Q) : Prop :=
  match m with
  | Ok x => x == v
  | Raise _ => False
  end.

(** [np.mean] and [np.var] (population variance) of a list of ints.  On an
    empty list numpy yields nan; the model reports that as [NanValue]. *)
Definition np_mean (l : list Z) : result Q :=
  match l with
  | [] => Raise NanValue
  | _ :: _ => Ok (sumQ (map int l) / int (len l))
  end.

Definition np_var (l : list Z) : result Q :=
  m <- np_mean l ;;
  Ok (sumQ (map (fun x => (int x - m) * (int x - m)) l) / int (len l)).

(** Truth value of a sequence: empty is false. *)
Definition truthy {A} (l : list A) : bool :=
  match l with
  | [] => false
  | _ :: _ => true
  end.

(** [sum(1 for x in l if p(x))] where the condition may raise. *)
Fixpoint count_if {A} (p : A -> result bool) (l : list A) : result Z :=
  match l with
  | [] => Ok 0%Z
  | x :: l' =>
    b <- p x ;;
    n <- count_if p l' ;;
    Ok (if b then 1 + n else n)%Z
  end.

(** ** The vocabularies of the extractors *)

Definition formal_words : list str :=
  map lit
  [ "furthermore"; "moreover"; "consequently"; "therefore";
    "nevertheless"; "however"; "regarding"; "facilitate";
    "implement"; "subsequent"; "adjacent"; "因此"; "然而"; "儘管" ]%string.

Definition patterns : list str :=
  map lit
  [ "in today's world"; "it is important to"; "in conclusion";
    "furthermore"; "在當今世界"; "重要的是"; "總之"; "此外" ]%string.

Definition contractions : list str :=
  map lit
  [ "can't"; "don't"; "won't"; "isn't"; "hasn't";
    "haven't"; "shouldn't"; "couldn't"; "wouldn't";
    "that's"; "it's"; "i'm"; "you're"; "i've" ]%string.

Definition double_words : list str :=
  map lit [ "the the"; "and and"; "a a"; "的的"; "和和" ]%string.

Definition emotional : list str :=
  map lit
  [ "love"; "hate"; "beautiful"; "terrible"; "wonderful";
    "awful"; "amazing"; "fantastic"; "horrible"; "feel";
    "喜歡"; "討厭"; "美"; "可怕"; "棒"; "糟糕"; "感受" ]%string.

Definition casual : list str :=
  map lit
  [ "like"; "you know"; "basically"; "literally";
    "actually"; "honestly"; "pretty"; "kind of";
    "sort of"; "gonna"; "wanna"; "就像"; "你知道"; "基本上" ]%string.

Definition opinions : list str :=
  map lit
  [ "i think"; "i believe"; "my opinion"; "i would say";
    "personally"; "to me"; "in my view";
    "我認為"; "我相信"; "我的看法"; "個人來說" ]%string.

(** ** The extractors and the scoring pipeline *)

(** [count_repeated_phrases], lines 15-18: the dictionary of the three-word
    windows of [words] with their numbers of occurrences. *)
Definition phrase_table (words : list str) : dict Z :=
  fold_left
    (fun (phrases : dict Z) (i : Z) =>
       let phrase := join (lit " ") (slice words i (i + 3)) in
       dict_set phrases phrase (dict_get phrases phrase 0 + 1)%Z)
    (range (len words - 2)) [].

(** The three-word windows of [words], in the order of the loop, and the
    update the loop applies for one window. *)
Definition windows (words : list str) : list str :=
  map (fun i => join (lit " ") (slice words i (i + 3)))
      (range (len words - 2)).

Definition tally (phrases : dict Z) (phrase : str) : dict Z :=
  dict_set phrases phrase (dict_get phrases phrase 0 + 1)%Z.

Definition str_eq_dec : forall a b : str, {a = b} + {a <> b} :=
  list_eq_dec N.eq_dec.

(** Number of occurrences of a window among the windows. *)
Definition occurrences (ws : list str) (w : str) : Z :=
  Z.of_nat (count_occ str_eq_dec ws w).

Record details : Type := {
  ai_features : dict bool;
  human_features : dict bool
}.

(** [analyze_text], lines 216-221: the two bases and the normalised pair. *)
Definition ai_base_of (ai_scores : list Q) : Q :=
  Qmin 0.95 (sumQ ai_scores + 0.15).

Definition human_base_of (human_scores : list Q) : Q :=
  Qmin 0.95 (sumQ human_scores + 0.1).

Definition score_combiner (ai_scores human_scores : list Q)
  : result (Q * Q) :=
  let ai_base := ai_base_of ai_scores in
  let human_base := human_base_of human_scores in
  let total := ai_base + human_base in
  ai_score <- (if Qgtb total 0 then truediv ai_base total else Ok 0.5) ;;
  let human_score := 1 - ai_score in
  Ok (ai_score, human_score).

(** [analyze_text], lines 224-229: the sensitivity adjustment of the pair
    computed by the combiner. *)
Definition sensitivity_adjust (sensitivity ai_score human_score : Q)
  : Q * Q :=
  if Qltb sensitivity 0.75 then
    let ai_score := ai_score * 0.85 in
    let human_score := 1 - ai_score in
    (ai_score, human_score)
  else if Qgtb sensitivity 0.85 then
    let ai_score := Qmin 0.99 (ai_score * 1.15) in
    let human_score := 1 - ai_score in
    (ai_score, human_score)
  else (ai_score, human_score).

(** ** The page: the conclusion and the handler of the analysis button *)

(** Lines 324-332: the banner chosen from the AI probability. *)
Inductive verdict : Set :=
| HighlyLikelyAI
| PossiblyAI
| LikelyHuman.

Definition conclusion (ai_score : Q) : verdict :=
  if Qgtb ai_score 0.75 then HighlyLikelyAI
  else if Qgtb ai_score 0.55 then PossiblyAI
  else LikelyHuman.

(** What the handler shows: the length error of line 287, or the scores,
    the feature flags and the banner. *)
Inductive outcome : Type :=
| Rejected
| Report (ai_score human_score : Q) (d : details) (v : verdict).

Section Analysis.

(** The Unicode tables of the Python runtime: [text.lower()], membership
    in the whitespace class, and [c.isupper()] for a one-character [c]. *)
Variable lower : str -> str.
Variable isspace : char -> bool.
Variable isupper : char -> bool.

(** [s.split()]: pieces between runs of whitespace, none of them empty. *)
Fixpoint split_aux (cur : str) (s : str) : list str :=
  match s with
  | [] => if truthy cur then [rev cur] else []
  | c :: s' =>
    if isspace c
    then (if truthy cur then rev cur :: split_aux [] s' else split_aux [] s')
    else split_aux (c :: cur) s'
  end.

Definition split (s : str) : list str := split_aux [] s.

Fixpoint lstrip (s : str) : str :=
  match s with
  | [] => []
  | c :: s' => if isspace c then lstrip s' else s
  end.

(** [s.strip()] *)
Definition strip (s : str) : str := rev (lstrip (rev (lstrip s))).

(** [max(1, len(text.split()) / k)], the denominator of the ratio
    extractors. *)
Definition token_floor (text : str) (k : Q) : result Q :=
  d <- truediv (int (len (split text))) k ;;
  Ok (Qmax 1 d).

Definition count_repeated_phrases (text : str) : Z :=
  let words := split (lower text) in
  if (len words <? 3)%Z then 0%Z
  else
    let phrases := phrase_table words in
    sumZ (map (fun _ => 1%Z) (filter (fun count => (2 <? count)%Z)
                                     (values phrases))).

Definition detect_formal_language (text : str) : result Q :=
  let text_lower := lower text in
  let count :=
    sumZ (map (fun _ => 1%Z)
              (filter (fun word => contains word text_lower) formal_words)) in
  d <- truediv (int count) 3 ;;
  Ok (Qmin 1 d).

(** The condition of the capitalisation count: [s.strip()] is non-empty
    and its first character is not upper case. *)
Definition cap_error (s : str) : result bool :=
  if truthy (strip s)
  then (c <- index (strip s) 0 ;; Ok (negb (isupper c)))
  else Ok false.

(** The same condition as a plain test: the first character of
    [s.strip()], when there is one, is not upper case. *)
Definition first_not_upper (s : str) : bool :=
  match strip s with
  | [] => false
  | c :: _ => negb (isupper c)
  end.

Definition check_grammar_perfection (text : str) : result Q :=
  let errors := 0%Z in
  let errors :=
    if contains (lit "  ") text
    then (errors + count text (lit "  "))%Z else errors in
  let sentences := split_on (lit "。") text in
  cap_errors <- count_if cap_error sentences ;;
  let errors := (errors + cap_errors)%Z in
  m <- token_floor text 10 ;;
  q <- truediv (int errors) m ;;
  Ok (Qmax 0 (1 - q)).

Definition check_formulaic_patterns (text : str) : bool :=
  let text_lower := lower text in
  let count :=
    sumZ (map (fun _ => 1%Z)
              (filter (fun p => contains p text_lower) patterns)) in
  (2 <=? count)%Z.

(** [analyze_structure], lines 70 and 74: the stripped non-blank
    sentences and their numbers of tokens. *)
Definition sentences_of (text : str) : list str :=
  map strip (filter (fun s => truthy (strip s)) (split_on (lit "。") text)).

Definition sentence_lengths (text : str) : list Z :=
  map (fun s => len (split s)) (sentences_of text).

Definition analyze_structure (text : str) : result Q :=
  let sentences := sentences_of text in
  if (len sentences <? 2)%Z then Ok 0
  else
    let lengths := sentence_lengths text in
    variance <- (if (1 <? len lengths)%Z then np_var lengths else Ok 0) ;;
    mean_len <- (if truthy lengths then np_mean lengths else Ok 1) ;;
    cv <- truediv variance (mean_len + 1) ;;
    d <- truediv cv 3 ;;
    Ok (1 - Qmin 1 d).

Definition count_contractions (text : str) : Z :=
  let text_lower := lower text in
  sumZ (map (fun c => count text_lower c) contractions).

Definition detect_natural_errors (text : str) : result Q :=
  let errors :=
    fold_left (fun errors word => (errors + count (lower text) word)%Z)
              double_words 0%Z in
  m <- token_floor text 10 ;;
  truediv (int errors) m.

Definition detect_emotional_language (text : str) : result Q :=
  let text_lower := lower text in
  let count :=
    sumZ (map (fun _ => 1%Z)
              (filter (fun word => contains word text_lower) emotional)) in
  m <- token_floor text 5 ;;
  truediv (int count) m.

Definition detect_casual_language (text : str) : result Q :=
  let text_lower := lower text in
  let count :=
    sumZ (map (fun _ => 1%Z)
              (filter (fun word => contains word text_lower) casual)) in
  m <- token_floor text 5 ;;
  truediv (int count) m.

Definition detect_personal_opinions (text : str) : result Q :=
  let text_lower := lower text in
  let count :=
    sumZ (map (fun _ => 1%Z)
              (filter (fun op => contains op text_lower) opinions)) in
  m <- token_floor text 5 ;;
  truediv (int count) m.

(** [analyze_text], lines 147-179: the AI feature flags and the list of
    their contributions. *)
Definition ai_stage (text : str) : result (dict bool * list Q) :=
  let ai_features : dict bool := [] in
  let ai_scores : list Q := [] in
  let repeated := count_repeated_phrases text in
  let ai_features :=
    dict_set ai_features (lit "重複短語多") (3 <? repeated)%Z in
  let ai_scores :=
    if (3 <? repeated)%Z then ai_scores ++ [0.15] else ai_scores in
  formal <- detect_formal_language text ;;
  let ai_features := dict_set ai_features (lit "過度正式") (Qgtb formal 0.6) in
  let ai_scores :=
    if Qgtb formal 0.6 then ai_scores ++ [0.12] else ai_scores in
  grammar <- check_grammar_perfection text ;;
  let ai_features :=
    dict_set ai_features (lit "語法完美") (Qgtb grammar 0.8) in
  let ai_scores :=
    if Qgtb grammar 0.8 then ai_scores ++ [0.12] else ai_scores in
  let formulaic := check_formulaic_patterns text in
  let ai_features := dict_set ai_features (lit "模式化短語") formulaic in
  let ai_scores := if formulaic then ai_scores ++ [0.10] else ai_scores in
  structure <- analyze_structure text ;;
  let ai_features :=
    dict_set ai_features (lit "結構過規律") (Qgtb structure 0.7) in
  let ai_scores :=
    if Qgtb structure 0.7 then ai_scores ++ [0.10] else ai_scores in
  Ok (ai_features, ai_scores).

(** [analyze_text], lines 181-213: the Human feature flags and the list of
    their contributions. *)
Definition human_stage (text : str) : result (dict bool * list Q) :=
  let human_features : dict bool := [] in
  let human_scores : list Q := [] in
  let contractions := count_contractions text in
  let human_features :=
    dict_set human_features (lit "使用縮寫") (1 <? contractions)%Z in
  let human_scores :=
    if (1 <? contractions)%Z then human_scores ++ [0.15] else human_scores in
  errors <- detect_natural_errors text ;;
  let human_features :=
    dict_set human_features (lit "自然錯誤") (Qgtb errors 0.01) in
  let human_scores :=
    if Qgtb errors 0.01 then human_scores ++ [0.12] else human_scores in
  emotion <- detect_emotional_language text ;;
  let human_features :=
    dict_set human_features (lit "情感表現") (Qgtb emotion 0.05) in
  let human_scores :=
    if Qgtb emotion 0.05 then human_scores ++ [0.15] else human_scores in
  casual <- detect_casual_language text ;;
  let human_features :=
    dict_set human_features (lit "口語用詞") (Qgtb casual 0.05) in
  let human_scores :=
    if Qgtb casual 0.05 then human_scores ++ [0.12] else human_scores in
  opinion <- detect_personal_opinions text ;;
  let human_features :=
    dict_set human_features (lit "個人觀點") (Qgtb opinion 0.05) in
  let human_scores :=
    if Qgtb opinion 0.05 then human_scores ++ [0.10] else human_scores in
  Ok (human_features, human_scores).

(** The pair [(ai_score, human_score)] as it stands after line 221, before
    the sensitivity is applied. *)
Definition score_pair_before (text : str) : result (Q * Q) :=
  ' (_, ai_scores) <- ai_stage text ;;
  ' (_, human_scores) <- human_stage text ;;
  score_combiner ai_scores human_scores.

Definition analyze_text (text : str) (sensitivity : Q)
  : result (Q * Q * details) :=
  ' (ai_features, ai_scores) <- ai_stage text ;;
  ' (human_features, human_scores) <- human_stage text ;;
  ' (ai_score, human_score) <- score_combiner ai_scores human_scores ;;
  let '(ai_score, human_score) :=
    sensitivity_adjust sensitivity ai_score human_score in
  Ok (ai_score, human_score,
      {| ai_features := ai_features; human_features := human_features |}).

(** Lines 285-332, the body of the button handler, without the
    rendering. *)
Definition on_analyze (user_text : str) (sensitivity : Q) : result outcome :=
  if negb (truthy user_text) || (len (strip user_text) <? 20)%Z
  then Ok Rejected
  else
    ' (ai_score, human_score, d) <- analyze_text user_text sensitivity ;;
    Ok (Report ai_score human_score d (conclusion ai_score)).

End Analysis.

(** ** The objects of the pipeline in a store

    [analyze_text] builds two dictionaries and two lists by assignment and
    [append], and returns a dictionary that refers to the two dictionaries.
    To speak of state that outlives a call, the same code is embedded once
    more over a store of objects: an object lives at an address, creating
    one extends the store, and an assignment or an [append] replaces the
    object at its address.  The store a call starts from holds whatever
    the module and earlier calls have created.  The extractors read
    nothing but their argument and create only objects that do not outlive
    them (their vocabularies and the dictionary of windows are local), so
    they stay functions. *)

Definition addr := nat.

Inductive obj : Type :=
| OFloat (x : Q)
| OStr (s : str)
| OFlags (d : dict bool)
| OScores (l : list Q)
| ODetails (d : dict addr).

Definition heap := list obj.

(** A call stops with an exception, or because an address does not hold
    an object of the kind the operation needs. *)
Inductive fault : Set :=
| Raised (e : exn)
| WrongObject.

Inductive run (A : Type) : Type :=
| Done (a : A) (h : heap)
| Failed (f : fault).

Arguments Done {A} a h.
Arguments Failed {A} f.

Definition St (A : Type) : Type := heap -> run A.

Definition st_ret {A} (a : A) : St A := fun h => Done a h.

Definition st_bind {A B} (m : St A) (k : A -> St B) : St B :=
  fun h =>
    match m h with
    | Done a h' => k a h'
    | Failed f => Failed f
    end.

Notation "x <~ m ;; k" := (st_bind m (fun x => k))
  (at level 61, m at next level, right associativity).
Notation "m >> k" := (st_bind m (fun _ => k))
  (at level 61, right associativity).
Notation "' p <~ m ;; k" := (st_bind m (fun x => match x with p => k end))
  (at level 61, p pattern, m at next level, right associativity).

(** A computation without effect on the store. *)
Definition lift {A} (r : result A) : St A :=
  fun h =>
    match r with
    | Ok a => Done a h
    | Raise e => Failed (Raised e)
    end.

(** A new object: [{}], [[]] or a dictionary display. *)
Definition new (o : obj) : St addr :=
  fun h => Done (length h) (h ++ [o]).

Definition update (a : addr) (o : obj) (h : heap) : heap :=
  firstn a h ++ o :: skipn (S a) h.

(** [d[k] = v] on a dictionary of flags. *)
Definition setitem (a : addr) (k : str) (v : bool) : St unit :=
  fun h =>
    match nth_error h a with
    | Some (OFlags d) => Done tt (update a (OFlags (dict_set d k v)) h)
    | _ => Failed WrongObject
    end.

(** [l.append(x)] on a list of floats. *)
Definition append (a : addr) (x : Q) : St unit :=
  fun h =>
    match nth_error h a with
    | Some (OScores l) => Done tt (update a (OScores (l ++ [x])) h)
    | _ => Failed WrongObject
    end.

(** The list of floats at an address, as [sum] reads it. *)
Definition scores_at (a : addr) : St (list Q) :=
  fun h =>
    match nth_error h a with
    | Some (OScores l) => Done l h
    | _ => Failed WrongObject
    end.

Fixpoint dict_find {V} (d : dict V) (k : str) : option V :=
  match d with
  | [] => None
  | (k', v) :: d' => if str_eqb k' k then Some v else dict_find d' k
  end.

Definition flags_at (h : heap) (a : addr) : option (dict bool) :=
  match nth_error h a with
  | Some (OFlags d) => Some d
  | _ => None
  end.

(** The [details] a caller reads through the returned reference:
    [details['ai_features']] and [details['human_features']]. *)
Definition view_details (h : heap) (a : addr) : option details :=
  match nth_error h a with
  | Some (ODetails d) =>
    match dict_find d (lit "ai_features"),
          dict_find d (lit "human_features") with
    | Some ra, Some rh =>
      match flags_at h ra, flags_at h rh with
      | Some fa, Some fh =>
        Some {| ai_features := fa; human_features := fh |}
      | _, _ => None
      end
    | _, _ => None
    end
  | _ => None
  end.

Section StoreAnalysis.

Variable lower : str -> str.
Variable isspace : char -> bool.
Variable isupper : char -> bool.

(** [analyze_text], lines 147-179, on the store. *)
Definition ai_stage_st (text : str) : St (addr * addr) :=
  ai_features <~ new (OFlags []) ;;
  ai_scores <~ new (OScores []) ;;
  let repeated := count_repeated_phrases lower isspace text in
  setitem ai_features (lit "重複短語多") (3 <? repeated)%Z >>
  (if (3 <? repeated)%Z then append ai_scores 0.15 else st_ret tt) >>
  formal <~ lift (detect_formal_language lower text) ;;
  setitem ai_features (lit "過度正式") (Qgtb formal 0.6) >>
  (if Qgtb formal 0.6 then append ai_scores 0.12 else st_ret tt) >>
  grammar <~ lift (check_grammar_perfection isspace isupper text) ;;
  setitem ai_features (lit "語法完美") (Qgtb grammar 0.8) >>
  (if Qgtb grammar 0.8 then append ai_scores 0.12 else st_ret tt) >>
  let formulaic := check_formulaic_patterns lower text in
  setitem ai_features (lit "模式化短語") formulaic >>
  (if formulaic then append ai_scores 0.10 else st_ret tt) >>
  structure <~ lift (analyze_structure isspace text) ;;
  setitem ai_features (lit "結構過規律") (Qgtb structure 0.7) >>
  (if Qgtb structure 0.7 then append ai_scores 0.10 else st_ret tt) >>
  st_ret (ai_features, ai_scores).

(** [analyze_text], lines 181-213, on the store. *)
Definition human_stage_st (text : str) : St (addr * addr) :=
  human_features <~ new (OFlags []) ;;
  human_scores <~ new (OScores []) ;;
  let contractions := count_contractions lower text in
  setitem human_features (lit "使用縮寫") (1 <? contractions)%Z >>
  (if (1 <? contractions)%Z
        then append human_scores 0.15 else st_ret tt) >>
  errors <~ lift (detect_natural_errors lower isspace text) ;;
  setitem human_features (lit "自然錯誤") (Qgtb errors 0.01) >>
  (if Qgtb errors 0.01 then append human_scores 0.12 else st_ret tt) >>
  emotion <~ lift (detect_emotional_language lower isspace text) ;;
  setitem human_features (lit "情感表現") (Qgtb emotion 0.05) >>
  (if Qgtb emotion 0.05 then append human_scores 0.15 else st_ret tt) >>
  casual <~ lift (detect_casual_language lower isspace text) ;;
  setitem human_features (lit "口語用詞") (Qgtb casual 0.05) >>
  (if Qgtb casual 0.05 then append human_scores 0.12 else st_ret tt) >>
  opinion <~ lift (detect_personal_opinions lower isspace text) ;;
  setitem human_features (lit "個人觀點") (Qgtb opinion 0.05) >>
  (if Qgtb opinion 0.05 then append human_scores 0.10 else st_ret tt) >>
  st_ret (human_features, human_scores).

(** [analyze_text] on the store: the result is the two scores and the
    address of [details]. *)
Definition analyze_text_st (text : str) (sensitivity : Q)
  : St (Q * Q * addr) :=
  ' (ai_features, ai_scores) <~ ai_stage_st text ;;
  ' (human_features, human_scores) <~ human_stage_st text ;;
  ai_list <~ scores_at ai_scores ;;
  human_list <~ scores_at human_scores ;;
  ' (ai_score, human_score) <~ lift (score_combiner ai_list human_list) ;;
  let '(ai_score, human_score) :=
    sensitivity_adjust sensitivity ai_score human_score in
  details <~ new (ODetails [ (lit "ai_features", ai_features);
                             (lit "human_features", human_features) ]) ;;
  st_ret (ai_score, human_score, details).

End StoreAnalysis.

(** ** The tables on Basic Latin

    On code points below 128 these agree with the Python runtime; other
    code points are left unchanged by [latin_lower] and are neither
    whitespace nor upper case. *)
Definition latin_lower_char (c : char) : char :=
  if ((65 <=? c) && (c <=? 90))%N then (c + 32)%N else c.

Definition latin_lower (s : str) : str := map latin_lower_char s.

Definition latin_isspace (c : char) : bool :=
  (((9 <=? c) && (c <=? 13)) || ((28 <=? c) && (c <=? 32)))%N.

Definition latin_isupper (c : char) : bool :=
  ((65 <=? c) && (c <=? 90))%N.

(** ** The specification's reading of the scoring rules

    These definitions follow the words of the specification (sections 4.1
    to 4.4); the theorems compare them with the code above. *)

(** The aggregator table: feature name and contribution, per group. *)
Definition ai_table : list (str * Q) :=
  [ (lit "重複短語多", 0.15); (lit "過度正式", 0.12); (lit "語法完美", 0.12);
    (lit "模式化短語", 0.10); (lit "結構過規律", 0.10) ].

Definition human_table : list (str * Q) :=
  [ (lit "使用縮寫", 0.15); (lit "自然錯誤", 0.12); (lit "情感表現", 0.15);
    (lit "口語用詞", 0.12); (lit "個人觀點", 0.10) ].

(** Sum of the contributions of the flags that are true. *)
Definition group_sum (table : list (str * Q)) (flags : dict bool) : Q :=
  sumQ (map snd (filter (fun e => dict_get flags (fst e) false) table)).

Definition spec_ai_base (ai_flags : dict bool) : Q :=
  Qmin 0.95 (group_sum ai_table ai_flags + 0.15).

Definition spec_human_base (human_flags : dict bool) : Q :=
  Qmin 0.95 (group_sum human_table human_flags + 0.10).

Definition spec_ai_probability (ai_flags human_flags : dict bool) : Q :=
  let total := spec_ai_base ai_flags + spec_human_base human_flags in
  if Qgtb total 0 then spec_ai_base ai_flags / total else 0.5.

(** The Formal-Language Score as the specification words it: occurrences
    of the vocabulary terms in the lowercased text, capped at three. *)
Definition spec_formal_occurrences (lower : str -> str) (text : str) : Z :=
  sumZ (map (fun word => count (lower text) word) formal_words).

Definition spec_formal_language_score (lower : str -> str) (text : str) : Q :=
  Qmin 1 (int (spec_formal_occurrences lower text) / 3).

(** The vocabulary terms that occur at least once in the lowercased
    text. *)
Definition formal_terms_present (lower : str -> str) (text : str)
  : list str :=
  filter (fun word => contains word (lower text)) formal_words.

(** The flags and contribution lists of a group, given the outcome of its
    five threshold tests in the order of the source. *)
Definition flags_of (names : list str) (bs : list bool) : dict bool :=
  combine names bs.

Definition contributions_of (weights : list Q) (bs : list bool) : list Q :=
  map fst (filter snd (combine weights bs)).

(** ** Sample texts *)

Definition opinion_text : str :=
  lit "I think it's wonderful, you know, I really love it! Basically amazing.".

Definition formulaic_text : str :=
  lit "Furthermore, it is important to implement this. Furthermore, it is important to implement this. Furthermore, it is important to implement this.".

Definition repeated_term_text : str :=
  lit "furthermore furthermore furthermore".

Definition three_terms_text : str :=
  lit "However, it works; moreover it is fast. Therefore we keep it.".

Definition three_tokens_text : str := lit "Go go GO".

Definition plain_text : str := lit "hello world".

Definition two_sentence_text : str := lit "Hello world。Good day。".

(** * Properties *)

(** ** Comparisons and division on rationals *)

Lemma Qltb_lt (x y : Q) : Qltb x y = true <-> x < y.
Proof.
  unfold Qltb. rewrite negb_true_iff.
  split; intro H.
  - apply Qnot_le_lt. intro Hle. apply Qle_bool_iff in Hle. congruence.
  - destruct (Qle_bool y x) eqn:E; [|reflexivity].
    apply Qle_bool_iff in E. exfalso. apply (Qlt_not_le _ _ H E).
Qed.

Lemma Qltb_ge (x y : Q) : Qltb x y = false <-> y <= x.
Proof.
  unfold Qltb. rewrite negb_false_iff. apply Qle_bool_iff.
Qed.

Lemma Qltb_compat (x x' y y' : Q) :
  x == x' -> y == y' -> Qltb x y = Qltb x' y'.
Proof.
  intros Hx Hy.
  destruct (Qltb x y) eqn:E; symmetry.
  - apply Qltb_lt. apply Qltb_lt in E. rewrite <- Hx, <- Hy. exact E.
  - apply Qltb_ge. apply Qltb_ge in E. rewrite <- Hx, <- Hy. exact E.
Qed.

Lemma truediv_ok (a b : Q) : ~ b == 0 -> truediv a b = Ok (a / b).
Proof.
  intro Hb. unfold truediv.
  destruct (Qeq_bool b 0) eqn:E; [|reflexivity].
  apply Qeq_bool_iff in E. contradiction.
Qed.

Lemma Qdiv_nonneg (a b : Q) : 0 <= a -> 0 < b -> 0 <= a / b.
Proof.
  intros Ha Hb. apply Qle_shift_div_l; [exact Hb|]. lra.
Qed.

Lemma int_nonneg (z : Z) : (0 <= z)%Z -> 0 <= int z.
Proof.
  intro H. unfold int, inject_Z, Qle. simpl. lia.
Qed.

Lemma int_pos (z : Z) : (0 < z)%Z -> 0 < int z.
Proof.
  intro H. unfold int, inject_Z, Qlt. simpl. lia.
Qed.

(** ** Sums *)

Lemma fold_add_acc (l : list Z) (a : Z) :
  fold_left Z.add l a = (a + sumZ l)%Z.
Proof.
  unfold sumZ. revert a.
  induction l as [|x l IH]; intro a; simpl.
  - lia.
  - rewrite IH, (IH x). lia.
Qed.

Lemma sumZ_cons (x : Z) (l : list Z) : sumZ (x :: l) = (x + sumZ l)%Z.
Proof.
  unfold sumZ at 1. simpl. apply fold_add_acc.
Qed.

Lemma sumZ_ones {A} (l : list A) : sumZ (map (fun _ => 1%Z) l) = len l.
Proof.
  unfold len.
  induction l as [|x l IH].
  - reflexivity.
  - cbn [map]. rewrite sumZ_cons, IH. cbn [length]. lia.
Qed.

Lemma sumZ_nonneg (l : list Z) : Forall (fun x => (0 <= x)%Z) l -> (0 <= sumZ l)%Z.
Proof.
  induction 1 as [|x l Hx _ IH].
  - unfold sumZ. simpl. lia.
  - rewrite sumZ_cons. lia.
Qed.

Lemma len_nonneg {A} (l : list A) : (0 <= len l)%Z.
Proof. unfold len. lia. Qed.

Lemma fold_Qplus_acc (l : list Q) (a : Q) :
  fold_left Qplus l a == a + sumQ l.
Proof.
  unfold sumQ. revert a.
  induction l as [|x l IH]; intro a; simpl.
  - lra.
  - rewrite IH, (IH (0 + x)). lra.
Qed.

Lemma sumQ_cons (x : Q) (l : list Q) : sumQ (x :: l) == x + sumQ l.
Proof.
  unfold sumQ at 1. simpl. rewrite fold_Qplus_acc. lra.
Qed.

Lemma sumQ_nonneg (l : list Q) : Forall (fun x => 0 <= x) l -> 0 <= sumQ l.
Proof.
  induction 1 as [|x l Hx _ IH].
  - unfold sumQ. simpl. lra.
  - rewrite sumQ_cons. lra.
Qed.

Lemma sumQ_squares_nonneg (f : Z -> Q) (l : list Z) :
  0 <= sumQ (map (fun x => f x * f x) l).
Proof.
  apply sumQ_nonneg. apply Forall_forall.
  intros q Hq. apply in_map_iff in Hq. destruct Hq as [x [<- _]].
  nra.
Qed.

Lemma sumQ_int_nonneg (l : list Z) :
  Forall (fun x => (0 <= x)%Z) l -> 0 <= sumQ (map int l).
Proof.
  intro H. apply sumQ_nonneg. apply Forall_forall.
  intros q Hq. apply in_map_iff in Hq. destruct Hq as [x [<- Hx]].
  apply int_nonneg. rewrite Forall_forall in H. auto.
Qed.

(** ** String operations *)

Lemma count_from_nonneg (sub : str) (s : str) (skip : nat) :
  (0 <= count_from sub skip s)%Z.
Proof.
  revert skip.
  induction s as [|c s IH]; intro skip; cbn [count_from].
  - lia.
  - destruct skip as [|k]; [|apply IH].
    destruct (startswith sub (c :: s)).
    + specialize (IH (pred (length sub))). lia.
    + apply IH.
Qed.

Lemma count_nonneg (s sub : str) : (0 <= count s sub)%Z.
Proof.
  unfold count. destruct sub.
  - pose proof (len_nonneg s). lia.
  - apply count_from_nonneg.
Qed.

Lemma count_if_ok {A} (p : A -> result bool) (l : list A) :
  (forall x, exists b, p x = Ok b) ->
  exists n, count_if p l = Ok n /\ (0 <= n <= len l)%Z.
Proof.
  intro Hp.
  induction l as [|x l [n [IH Hn]]]; cbn [count_if].
  - exists 0%Z. split; [reflexivity|]. unfold len. simpl. lia.
  - destruct (Hp x) as [b Hb]. rewrite Hb, IH. cbn [bind].
    unfold len in *. cbn [length].
    destruct b; eexists; (split; [reflexivity|lia]).
Qed.

(** ** Numpy statistics *)

Lemma np_mean_ok (l : list Z) :
  l <> [] -> Forall (fun x => (0 <= x)%Z) l ->
  exists m, np_mean l = Ok m /\ 0 <= m.
Proof.
  intros Hne Hl. destruct l as [|x l]; [congruence|].
  eexists. split; [reflexivity|].
  apply Qdiv_nonneg.
  - apply sumQ_int_nonneg, Hl.
  - apply int_pos. unfold len. simpl. lia.
Qed.

Lemma np_var_ok (l : list Z) :
  l <> [] -> exists v, np_var l = Ok v /\ 0 <= v.
Proof.
  intros Hne. destruct l as [|x l]; [congruence|].
  unfold np_var. cbn [np_mean bind].
  eexists. split; [reflexivity|].
  apply Qdiv_nonneg.
  - apply (sumQ_squares_nonneg (fun y => int y - _)).
  - apply int_pos. unfold len. simpl. lia.
Qed.

(** ** The extractors *)

Section ExtractorFacts.

Variable lower : str -> str.
Variable isspace : char -> bool.
Variable isupper : char -> bool.

Lemma token_floor_ok (text : str) (k : Q) :
  ~ k == 0 ->
  token_floor isspace text k
  = Ok (Qmax 1 (int (len (split isspace text)) / k)).
Proof.
  intro Hk. unfold token_floor. rewrite (truediv_ok _ Hk). reflexivity.
Qed.

Lemma cap_error_ok (s : str) :
  exists b, cap_error isspace isupper s = Ok b.
Proof.
  unfold cap_error.
  destruct (strip isspace s) as [|c r]; simpl.
  - exists false. reflexivity.
  - eexists. reflexivity.
Qed.

(** The Formal-Language Score is a third of the number of vocabulary
    terms present in the lowercased text, capped at 1. *)
Lemma detect_formal_language_eq (text : str) :
  detect_formal_language lower text
  = Ok (Qmin 1 (int (len (filter (fun word => contains word (lower text))
                                 formal_words)) / 3)).
Proof.
  unfold detect_formal_language. rewrite sumZ_ones.
  rewrite truediv_ok by (intro H; discriminate H). reflexivity.
Qed.

Lemma detect_formal_language_bounds (text : str) :
  exists f, detect_formal_language lower text = Ok f /\ 0 <= f <= 1.
Proof.
  rewrite detect_formal_language_eq. eexists. split; [reflexivity|].
  split.
  - apply Q.min_glb; [lra|].
    apply Qdiv_nonneg; [apply int_nonneg, len_nonneg|lra].
  - apply Q.le_min_l.
Qed.

Lemma count_repeated_phrases_nonneg (text : str) :
  (0 <= count_repeated_phrases lower isspace text)%Z.
Proof.
  unfold count_repeated_phrases.
  destruct (len (split isspace (lower text)) <? 3)%Z; [lia|].
  rewrite sumZ_ones. apply len_nonneg.
Qed.

Lemma check_grammar_perfection_bounds (text : str) :
  exists g,
    check_grammar_perfection isspace isupper text = Ok g /\ 0 <= g <= 1.
Proof.
  unfold check_grammar_perfection.
  destruct (count_if_ok (cap_error isspace isupper)
              (split_on (lit "。") text) cap_error_ok) as [n [Hn Hn0]].
  rewrite Hn. cbn [bind].
  rewrite token_floor_ok by (intro H; discriminate H). cbn [bind].
  set (m := Qmax 1 _).
  assert (Hm : 1 <= m) by apply Q.le_max_l.
  set (errors := (_ + n)%Z).
  assert (He : (0 <= errors)%Z).
  { subst errors. pose proof (count_nonneg text (lit "  ")).
    destruct (contains _ text); lia. }
  rewrite truediv_ok by lra. cbn [bind].
  eexists. split; [reflexivity|].
  assert (Hq : 0 <= int errors / m)
    by (apply Qdiv_nonneg; [apply int_nonneg, He|lra]).
  split.
  - apply Q.le_max_l.
  - apply Q.max_lub; lra.
Qed.

(** With two sentences or more the statistics are defined, the divisor
    [mean_len + 1] is at least 1, and the score is as computed below. *)
Lemma analyze_structure_eq (text : str) :
  (2 <= len (sentences_of isspace text))%Z ->
  exists v m,
    np_var (sentence_lengths isspace text) = Ok v /\
    np_mean (sentence_lengths isspace text) = Ok m /\
    0 <= v /\ 1 <= m + 1 /\
    analyze_structure isspace text = Ok (1 - Qmin 1 (v / (m + 1) / 3)).
Proof.
  intro E. unfold analyze_structure.
  set (lengths := sentence_lengths isspace text).
  assert (Hlen : len lengths = len (sentences_of isspace text))
    by (unfold len, lengths, sentence_lengths; rewrite length_map;
        reflexivity).
  assert (Hne : lengths <> []).
  { intro H. rewrite H in Hlen. unfold len in Hlen, E. simpl in Hlen. lia. }
  assert (Hpos : Forall (fun x => (0 <= x)%Z) lengths).
  { apply Forall_forall. intros x Hx. apply in_map_iff in Hx.
    destruct Hx as [s [<- _]]. apply len_nonneg. }
  destruct (np_var_ok Hne) as [v [Hv Hv0]].
  destruct (np_mean_ok Hne Hpos) as [m [Hm Hm0]].
  exists v, m.
  split; [exact Hv|]. split; [exact Hm|].
  split; [exact Hv0|]. split; [lra|].
  replace (len (sentences_of isspace text) <? 2)%Z with false
    by (symmetry; apply Z.ltb_ge; lia).
  replace (1 <? len lengths)%Z with true
    by (symmetry; apply Z.ltb_lt; lia).
  replace (truthy lengths) with true
    by (destruct lengths; [congruence|reflexivity]).
  rewrite Hv, Hm. cbn [bind].
  rewrite truediv_ok by lra. cbn [bind].
  rewrite truediv_ok by (intro H; discriminate H). reflexivity.
Qed.

Lemma analyze_structure_bounds (text : str) :
  exists r, analyze_structure isspace text = Ok r /\ 0 <= r <= 1.
Proof.
  destruct (len (sentences_of isspace text) <? 2)%Z eqn:E.
  - unfold analyze_structure. rewrite E.
    exists 0. split; [reflexivity|lra].
  - apply Z.ltb_ge in E.
    destruct (analyze_structure_eq text E)
      as (v & m & _ & _ & Hv & Hm & Heq).
    rewrite Heq. eexists. split; [reflexivity|].
    assert (Hcv : 0 <= v / (m + 1)) by (apply Qdiv_nonneg; lra).
    assert (Hd : 0 <= v / (m + 1) / 3) by (apply Qdiv_nonneg; lra).
    pose proof (Q.le_min_l 1 (v / (m + 1) / 3)).
    assert (0 <= Qmin 1 (v / (m + 1) / 3)) by (apply Q.min_glb; lra).
    lra.
Qed.

Lemma ratio_ok (text : str) (n : Z) (k : Q) :
  ~ k == 0 ->
  exists r,
    (m <- token_floor isspace text k ;; truediv (int n) m) = Ok r.
Proof.
  intro Hk. rewrite token_floor_ok by exact Hk. cbn [bind].
  set (m := Qmax 1 _).
  assert (Hm : 1 <= m) by apply Q.le_max_l.
  rewrite truediv_ok by lra. eexists. reflexivity.
Qed.

Lemma detect_natural_errors_ok (text : str) :
  exists r, detect_natural_errors lower isspace text = Ok r.
Proof. apply ratio_ok. intro H. discriminate H. Qed.

Lemma detect_emotional_language_ok (text : str) :
  exists r, detect_emotional_language lower isspace text = Ok r.
Proof. apply ratio_ok. intro H. discriminate H. Qed.

Lemma detect_casual_language_ok (text : str) :
  exists r, detect_casual_language lower isspace text = Ok r.
Proof. apply ratio_ok. intro H. discriminate H. Qed.

Lemma detect_personal_opinions_ok (text : str) :
  exists r, detect_personal_opinions lower isspace text = Ok r.
Proof. apply ratio_ok. intro H. discriminate H. Qed.

End ExtractorFacts.

(** ** The combiner and the adjuster *)

Lemma base_bounds (c : Q) (scores : list Q) :
  0 <= sumQ scores -> c <= 0.95 ->
  c <= Qmin 0.95 (sumQ scores + c) <= 0.95.
Proof.
  intros Hs Hc. split.
  - apply Q.min_glb; lra.
  - apply Q.le_min_l.
Qed.

Lemma share_bounds (a h : Q) :
  0.15 <= a <= 0.95 -> 0.1 <= h <= 0.95 -> 0 <= a / (a + h) <= 0.99.
Proof.
  intros Ha Hh. split.
  - apply Qdiv_nonneg; lra.
  - apply Qle_shift_div_r; lra.
Qed.

Lemma score_combiner_ok (ai_scores human_scores : list Q) :
  0 <= sumQ ai_scores -> 0 <= sumQ human_scores ->
  let a := ai_base_of ai_scores in
  let h := human_base_of human_scores in
  0.15 <= a <= 0.95 /\ 0.1 <= h <= 0.95 /\
  Qgtb (a + h) 0 = true /\
  score_combiner ai_scores human_scores
  = Ok (a / (a + h), 1 - a / (a + h)).
Proof.
  intros Ha Hh a h.
  assert (Ba : 0.15 <= a <= 0.95) by (apply base_bounds; lra).
  assert (Bh : 0.1 <= h <= 0.95) by (apply base_bounds; lra).
  assert (Hgt : Qgtb (a + h) 0 = true) by (apply Qltb_lt; lra).
  repeat split; try tauto.
  unfold score_combiner. fold a h. rewrite Hgt.
  rewrite truediv_ok by lra. reflexivity.
Qed.

Lemma sensitivity_adjust_pair (s p h : Q) :
  0 <= p <= 0.99 -> h == 1 - p ->
  let r := sensitivity_adjust s p h in
  0 <= fst r <= 1 /\ 0 <= snd r <= 1 /\ fst r + snd r == 1.
Proof.
  intros Hp Hh. unfold sensitivity_adjust.
  destruct (Qltb s 0.75); [|destruct (Qgtb s 0.85)]; cbn [fst snd].
  - repeat split; lra.
  - pose proof (Q.le_min_l 0.99 (p * 1.15)).
    assert (0 <= Qmin 0.99 (p * 1.15)) by (apply Q.min_glb; lra).
    repeat split; lra.
  - repeat split; lra.
Qed.

Lemma sensitivity_adjust_compat (s s' p h : Q) :
  s == s' -> sensitivity_adjust s p h = sensitivity_adjust s' p h.
Proof.
  intro Hs. unfold sensitivity_adjust, Qgtb.
  rewrite (Qltb_compat Hs (Qeq_refl 0.75)).
  rewrite (Qltb_compat (Qeq_refl 0.85) Hs).
  reflexivity.
Qed.

(** The code's list of contributions sums to the table's contributions
    of the flags that are true, for either group. *)
Lemma ai_group_sum (b1 b2 b3 b4 b5 : bool) :
  let bs := [b1; b2; b3; b4; b5] in
  sumQ (contributions_of (map snd ai_table) bs)
  == group_sum ai_table (flags_of (map fst ai_table) bs)
  /\ 0 <= sumQ (contributions_of (map snd ai_table) bs).
Proof.
  destruct b1, b2, b3, b4, b5; vm_compute; split;
    (reflexivity || discriminate).
Qed.

Lemma human_group_sum (b1 b2 b3 b4 b5 : bool) :
  let bs := [b1; b2; b3; b4; b5] in
  sumQ (contributions_of (map snd human_table) bs)
  == group_sum human_table (flags_of (map fst human_table) bs)
  /\ 0 <= sumQ (contributions_of (map snd human_table) bs).
Proof.
  destruct b1, b2, b3, b4, b5; vm_compute; split;
    (reflexivity || discriminate).
Qed.

(** ** The stages of [analyze_text] *)

Section PipelineFacts.

Variable lower : str -> str.
Variable isspace : char -> bool.
Variable isupper : char -> bool.

Lemma ai_stage_shape (text : str) :
  exists b1 b2 b3 b4 b5,
    ai_stage lower isspace isupper text
    = Ok (flags_of (map fst ai_table) [b1; b2; b3; b4; b5],
          contributions_of (map snd ai_table) [b1; b2; b3; b4; b5]).
Proof.
  destruct (detect_formal_language_bounds lower text) as [f [Hf _]].
  destruct (check_grammar_perfection_bounds isspace isupper text)
    as [g [Hg _]].
  destruct (analyze_structure_bounds isspace text) as [r [Hr _]].
  unfold ai_stage. rewrite Hf. cbn [bind]. rewrite Hg. cbn [bind].
  rewrite Hr. cbn [bind].
  exists (3 <? count_repeated_phrases lower isspace text)%Z,
         (Qgtb f 0.6), (Qgtb g 0.8),
         (check_formulaic_patterns lower text), (Qgtb r 0.7).
  destruct (3 <? count_repeated_phrases lower isspace text)%Z,
           (Qgtb f 0.6), (Qgtb g 0.8),
           (check_formulaic_patterns lower text), (Qgtb r 0.7);
    reflexivity.
Qed.

Lemma human_stage_shape (text : str) :
  exists b1 b2 b3 b4 b5,
    human_stage lower isspace text
    = Ok (flags_of (map fst human_table) [b1; b2; b3; b4; b5],
          contributions_of (map snd human_table) [b1; b2; b3; b4; b5]).
Proof.
  destruct (detect_natural_errors_ok lower isspace text) as [e He].
  destruct (detect_emotional_language_ok lower isspace text) as [m Hm].
  destruct (detect_casual_language_ok lower isspace text) as [c Hc].
  destruct (detect_personal_opinions_ok lower isspace text) as [o Ho].
  unfold human_stage. rewrite He. cbn [bind]. rewrite Hm. cbn [bind].
  rewrite Hc. cbn [bind]. rewrite Ho. cbn [bind].
  exists (1 <? count_contractions lower text)%Z,
         (Qgtb e 0.01), (Qgtb m 0.05), (Qgtb c 0.05), (Qgtb o 0.05).
  destruct (1 <? count_contractions lower text)%Z,
           (Qgtb e 0.01), (Qgtb m 0.05), (Qgtb c 0.05), (Qgtb o 0.05);
    reflexivity.
Qed.

(** Both stages succeed, their contribution lists sum to the table sums
    of their flags, and the sums are not negative. *)
Lemma stages_ok (text : str) :
  exists ai_flags ai_scores human_flags human_scores,
    ai_stage lower isspace isupper text = Ok (ai_flags, ai_scores) /\
    human_stage lower isspace text = Ok (human_flags, human_scores) /\
    sumQ ai_scores == group_sum ai_table ai_flags /\
    sumQ human_scores == group_sum human_table human_flags /\
    0 <= sumQ ai_scores /\ 0 <= sumQ human_scores.
Proof.
  destruct (ai_stage_shape text) as (a1 & a2 & a3 & a4 & a5 & Ha).
  destruct (human_stage_shape text) as (h1 & h2 & h3 & h4 & h5 & Hh).
  destruct (ai_group_sum a1 a2 a3 a4 a5) as [Sa Pa].
  destruct (human_group_sum h1 h2 h3 h4 h5) as [Sh Ph].
  do 4 eexists.
  split; [exact Ha|]. split; [exact Hh|].
  split; [exact Sa|]. split; [exact Sh|]. split; assumption.
Qed.

Lemma analyze_text_stages (text : str) (s : Q)
      (ai_flags human_flags : dict bool) (ai_scores human_scores : list Q)
      (p h : Q) :
  ai_stage lower isspace isupper text = Ok (ai_flags, ai_scores) ->
  human_stage lower isspace text = Ok (human_flags, human_scores) ->
  score_combiner ai_scores human_scores = Ok (p, h) ->
  score_pair_before lower isspace isupper text = Ok (p, h) /\
  analyze_text lower isspace isupper text s
  = Ok (fst (sensitivity_adjust s p h), snd (sensitivity_adjust s p h),
        {| ai_features := ai_flags; human_features := human_flags |}).
Proof.
  intros Ha Hh Hc. unfold score_pair_before, analyze_text.
  rewrite Ha, Hh. cbn [bind]. rewrite Hc. cbn [bind].
  split; [reflexivity|].
  destruct (sensitivity_adjust s p h). reflexivity.
Qed.

(** The pipeline returns for every text; the pair before adjustment is
    [ai_base / total] and its complement, with the AI share in [0, 0.99]. *)
Lemma pipeline_ok (text : str) :
  exists ai_flags ai_scores human_flags human_scores,
    let a := ai_base_of ai_scores in
    let h := human_base_of human_scores in
    let p := a / (a + h) in
    ai_stage lower isspace isupper text = Ok (ai_flags, ai_scores) /\
    human_stage lower isspace text = Ok (human_flags, human_scores) /\
    sumQ ai_scores == group_sum ai_table ai_flags /\
    sumQ human_scores == group_sum human_table human_flags /\
    (0.15 <= a <= 0.95 /\ 0.1 <= h <= 0.95 /\ Qgtb (a + h) 0 = true) /\
    0 <= p <= 0.99 /\
    score_pair_before lower isspace isupper text = Ok (p, 1 - p) /\
    forall s,
      analyze_text lower isspace isupper text s
      = Ok (fst (sensitivity_adjust s p (1 - p)),
            snd (sensitivity_adjust s p (1 - p)),
            {| ai_features := ai_flags; human_features := human_flags |}).
Proof.
  destruct (stages_ok text)
    as (af & asc & hf & hsc & Ha & Hh & Sa & Sh & Pa & Ph).
  destruct (score_combiner_ok asc hsc Pa Ph) as (Ba & Bh & Hgt & Hc).
  exists af, asc, hf, hsc. cbv zeta.
  split; [exact Ha|]. split; [exact Hh|].
  split; [exact Sa|]. split; [exact Sh|].
  split; [tauto|].
  split; [apply share_bounds; assumption|].
  split.
  - apply (analyze_text_stages text 0 Ha Hh Hc).
  - intro s. apply (analyze_text_stages text s Ha Hh Hc).
Qed.

End PipelineFacts.

(** ** Tokens of a lowercased text, on Basic Latin *)

Lemma split_aux_map (isspace : char -> bool) (f : char -> char) :
  (forall c, isspace (f c) = isspace c) ->
  forall s cur,
    split_aux isspace (map f cur) (map f s)
    = map (map f) (split_aux isspace cur s).
Proof.
  intros Hf s.
  induction s as [|c s IH]; intro cur; cbn [split_aux map].
  - rewrite <- map_rev. destruct cur; reflexivity.
  - rewrite Hf. destruct (isspace c).
    + rewrite <- map_rev. change (@nil char) with (map f []) at 1 2.
      rewrite IH. destruct cur; reflexivity.
    + apply (IH (c :: cur)).
Qed.

Lemma latin_isspace_lower (c : char) :
  latin_isspace (latin_lower_char c) = latin_isspace c.
Proof.
  unfold latin_isspace, latin_lower_char.
  destruct (N.leb_spec 65 c), (N.leb_spec c 90); cbn [andb]; try reflexivity.
  repeat match goal with
         | |- context [(?a <=? ?b)%N] => destruct (N.leb_spec a b)
         end; cbn [andb orb]; try reflexivity; lia.
Qed.

Lemma latin_split_lower (text : str) :
  split latin_isspace (latin_lower text)
  = map latin_lower (split latin_isspace text).
Proof.
  apply (split_aux_map latin_isspace latin_lower_char latin_isspace_lower
           text []).
Qed.

(** Three identical tokens of the text itself stay identical once the
    text is lowercased. *)
Lemma latin_three_identical_tokens (text w : str) :
  split latin_isspace text = [w; w; w] ->
  count_repeated_phrases latin_lower latin_isspace text = 0%Z.
Proof.
  intro H. unfold count_repeated_phrases.
  rewrite latin_split_lower, H. reflexivity.
Qed.

(** ** The model on the sample texts *)

Example formulaic_text_scores :
  count_repeated_phrases latin_lower latin_isspace formulaic_text = 5%Z /\
  check_formulaic_patterns latin_lower formulaic_text = true /\
  exists d,
    analyze_text latin_lower latin_isspace latin_isupper formulaic_text 0.9
    = Ok (0.99, 0.01, d).
Proof.
  split; [vm_compute; reflexivity|].
  split; [vm_compute; reflexivity|].
  eexists. vm_compute. reflexivity.
Qed.

Example opinion_text_scores :
  count_contractions latin_lower opinion_text = 1%Z /\
  exists a h d,
    analyze_text latin_lower latin_isspace latin_isupper opinion_text 0.8
    = Ok (a, h, d) /\
    a == 27 # 74 /\ h == 47 # 74 /\
    values (human_features d) = [false; false; true; true; true].
Proof.
  split; [vm_compute; reflexivity|].
  do 3 eexists. split; [vm_compute; reflexivity|].
  split; [vm_compute; reflexivity|].
  split; vm_compute; reflexivity.
Qed.

Example empty_text_extractors :
  count_repeated_phrases latin_lower latin_isspace (lit "") = 0%Z /\
  yields (detect_formal_language latin_lower (lit "")) 0 /\
  yields (check_grammar_perfection latin_isspace latin_isupper (lit "")) 1 /\
  check_formulaic_patterns latin_lower (lit "") = false /\
  yields (analyze_structure latin_isspace (lit "")) 0 /\
  count_contractions latin_lower (lit "") = 0%Z /\
  yields (detect_natural_errors latin_lower latin_isspace (lit "")) 0 /\
  yields (detect_emotional_language latin_lower latin_isspace (lit "")) 0 /\
  yields (detect_casual_language latin_lower latin_isspace (lit "")) 0 /\
  yields (detect_personal_opinions latin_lower latin_isspace (lit "")) 0.
Proof.
  repeat split; vm_compute; reflexivity.
Qed.

(** ** The pipeline on the store *)

Lemma nth_frame (H fr : heap) (i : nat) :
  nth_error (H ++ fr) (length H + i)%nat = nth_error fr i.
Proof.
  rewrite nth_error_app2 by lia.
  f_equal. lia.
Qed.

Lemma nth_extend (h ext : heap) (a : addr) (o : obj) :
  nth_error h a = Some o -> nth_error (h ++ ext) a = Some o.
Proof.
  intro H. rewrite nth_error_app1; [exact H|].
  apply nth_error_Some. congruence.
Qed.

Lemma update_frame (H fr : heap) (i : nat) (o : obj) :
  update (length H + i)%nat o (H ++ fr) = H ++ update i o fr.
Proof.
  unfold update.
  rewrite firstn_app_2, skipn_app.
  rewrite skipn_all2 by lia.
  replace (S (length H + i)%nat - length H)%nat with (S i) by lia.
  cbn [app]. rewrite <- app_assoc. reflexivity.
Qed.

Lemma st_bind_done {A B} (m : St A) (k : A -> St B) (h h' : heap) (a : A) :
  m h = Done a h' -> st_bind m k h = k a h'.
Proof.
  intro E. unfold st_bind. rewrite E. reflexivity.
Qed.

Lemma new_frame (H fr : heap) (o : obj) :
  new o (H ++ fr) = Done (length H + length fr)%nat (H ++ (fr ++ [o])).
Proof.
  unfold new. rewrite length_app, app_assoc. reflexivity.
Qed.

Lemma setitem_frame (H fr : heap) (i : nat) (k : str) (v : bool)
      (d : dict bool) :
  nth_error fr i = Some (OFlags d) ->
  setitem (length H + i)%nat k v (H ++ fr)
  = Done tt (H ++ update i (OFlags (dict_set d k v)) fr).
Proof.
  intro E. unfold setitem. rewrite nth_frame, E, update_frame. reflexivity.
Qed.

Lemma append_frame (H fr : heap) (i : nat) (x : Q) (l : list Q) :
  nth_error fr i = Some (OScores l) ->
  append (length H + i)%nat x (H ++ fr)
  = Done tt (H ++ update i (OScores (l ++ [x])) fr).
Proof.
  intro E. unfold append. rewrite nth_frame, E, update_frame. reflexivity.
Qed.

Lemma scores_frame (H fr : heap) (i : nat) (l : list Q) :
  nth_error fr i = Some (OScores l) ->
  scores_at (length H + i)%nat (H ++ fr) = Done l (H ++ fr).
Proof.
  intro E. unfold scores_at. rewrite nth_frame, E. reflexivity.
Qed.

Lemma flags_frame (H fr : heap) (i : nat) (d : dict bool) :
  nth_error fr i = Some (OFlags d) ->
  flags_at (H ++ fr) (length H + i)%nat = Some d.
Proof.
  intro E. unfold flags_at. rewrite nth_frame, E. reflexivity.
Qed.

(** What a reference shows is not changed by objects created later. *)
Lemma view_extend (h ext : heap) (a : addr) (D : details) :
  view_details h a = Some D -> view_details (h ++ ext) a = Some D.
Proof.
  unfold view_details, flags_at. intro V.
  destruct (nth_error h a) as [[| | | |d]|] eqn:E; try discriminate V.
  rewrite (nth_extend h ext a E).
  destruct (dict_find d (lit "ai_features")) as [ra|]; [|discriminate V].
  destruct (dict_find d (lit "human_features")) as [rh|]; [|discriminate V].
  destruct (nth_error h ra) as [[| |fa| |]|] eqn:Ea; try discriminate V.
  destruct (nth_error h rh) as [[| |fh| |]|] eqn:Eh; try discriminate V.
  rewrite (nth_extend h ext ra Ea), (nth_extend h ext rh Eh). exact V.
Qed.

(** One step of a run on a store [H ++ fr], where [fr] holds the objects
    the call has created so far. *)
Ltac st_step :=
  first
    [ erewrite st_bind_done by (apply new_frame)
    | erewrite st_bind_done by (apply setitem_frame; reflexivity)
    | erewrite st_bind_done by (apply append_frame; reflexivity)
    | erewrite st_bind_done by (apply scores_frame; reflexivity)
    | erewrite st_bind_done by reflexivity ];
  cbn [length app update firstn skipn].

Section StoreFacts.

Variable lower : str -> str.
Variable isspace : char -> bool.
Variable isupper : char -> bool.

(** The AI stage on the store creates two objects and leaves in them the
    dictionary and the list of the stage as a function. *)
Lemma ai_stage_st_run (text : str) (H : heap) :
  exists ai_flags ai_scores,
    ai_stage lower isspace isupper text = Ok (ai_flags, ai_scores) /\
    ai_stage_st lower isspace isupper text H
    = Done (length H + 0, length H + 1)%nat
           (H ++ [OFlags ai_flags; OScores ai_scores]).
Proof.
  destruct (detect_formal_language_bounds lower text) as [f [Hf _]].
  destruct (check_grammar_perfection_bounds isspace isupper text)
    as [g [Hg _]].
  destruct (analyze_structure_bounds isspace text) as [r [Hr _]].
  do 2 eexists. split.
  - unfold ai_stage. rewrite Hf. cbn [bind]. rewrite Hg. cbn [bind].
    rewrite Hr. cbn [bind]. reflexivity.
  - replace (ai_stage_st lower isspace isupper text H)
      with (ai_stage_st lower isspace isupper text (H ++ []))
      by (rewrite app_nil_r; reflexivity).
    unfold ai_stage_st. rewrite Hf, Hg, Hr.
    do 2 st_step.
    destruct (3 <? count_repeated_phrases lower isspace text)%Z;
      do 3 st_step;
      destruct (Qgtb f 0.6); do 3 st_step;
      destruct (Qgtb g 0.8); do 2 st_step;
      destruct (check_formulaic_patterns lower text); do 3 st_step;
      destruct (Qgtb r 0.7); do 2 st_step;
      reflexivity.
Qed.

Lemma human_stage_st_run (text : str) (H : heap) :
  exists human_flags human_scores,
    human_stage lower isspace text = Ok (human_flags, human_scores) /\
    human_stage_st lower isspace text H
    = Done (length H + 0, length H + 1)%nat
           (H ++ [OFlags human_flags; OScores human_scores]).
Proof.
  destruct (detect_natural_errors_ok lower isspace text) as [e He].
  destruct (detect_emotional_language_ok lower isspace text) as [m Hm].
  destruct (detect_casual_language_ok lower isspace text) as [c Hc].
  destruct (detect_personal_opinions_ok lower isspace text) as [o Ho].
  do 2 eexists. split.
  - unfold human_stage. rewrite He. cbn [bind]. rewrite Hm. cbn [bind].
    rewrite Hc. cbn [bind]. rewrite Ho. cbn [bind]. reflexivity.
  - replace (human_stage_st lower isspace text H)
      with (human_stage_st lower isspace text (H ++ []))
      by (rewrite app_nil_r; reflexivity).
    unfold human_stage_st. rewrite He, Hm, Hc, Ho.
    do 2 st_step.
    destruct (1 <? count_contractions lower text)%Z; do 3 st_step;
      destruct (Qgtb e 0.01); do 3 st_step;
      destruct (Qgtb m 0.05); do 3 st_step;
      destruct (Qgtb c 0.05); do 3 st_step;
      destruct (Qgtb o 0.05); do 2 st_step;
      reflexivity.
Qed.

(** The result of the pipeline depends on the sensitivity through its
    value only. *)
Lemma analyze_text_compat (text : str) (s1 s2 : Q) :
  s1 == s2 ->
  analyze_text lower isspace isupper text s1
  = analyze_text lower isspace isupper text s2.
Proof.
  intro Hs. unfold analyze_text.
  destruct (ai_stage lower isspace isupper text) as [[af asc]|e];
    cbn [bind]; [|reflexivity].
  destruct (human_stage lower isspace text) as [[hf hsc]|e];
    cbn [bind]; [|reflexivity].
  destruct (score_combiner asc hsc) as [[p h]|e];
    cbn [bind]; [|reflexivity].
  rewrite (sensitivity_adjust_compat p h Hs). reflexivity.
Qed.

(** A call on any store returns the scores of the pipeline as a function
    and the address of a new [details]; it creates five objects and
    changes none that was there. *)
Lemma analyze_text_st_run (text : str) (s : Q) (H : heap) :
  exists a hm D fr,
    analyze_text lower isspace isupper text s = Ok (a, hm, D) /\
    analyze_text_st lower isspace isupper text s H
    = Done (a, hm, (length H + 4)%nat) (H ++ fr) /\
    length fr = 5%nat /\
    view_details (H ++ fr) (length H + 4)%nat = Some D.
Proof.
  destruct (stages_ok lower isspace isupper text)
    as (af & asc & hf & hsc & Ha & Hh & _ & _ & Pa & Ph).
  destruct (score_combiner_ok asc hsc Pa Ph) as (_ & _ & _ & Hc).
  destruct (analyze_text_stages lower isspace isupper text s Ha Hh Hc)
    as [_ Hpure].
  destruct (ai_stage_st_run text H) as (af' & asc' & Ha' & Ra).
  rewrite Ha in Ha'. injection Ha' as <- <-.
  destruct (human_stage_st_run text (H ++ [OFlags af; OScores asc]))
    as (hf' & hsc' & Hh' & Rh).
  rewrite Hh in Hh'. injection Hh' as <- <-.
  rewrite length_app, <- app_assoc in Rh. cbn [length app] in Rh.
  rewrite <- !Nat.add_assoc in Rh. cbn [Nat.add] in Rh.
  set (p := ai_base_of asc / (ai_base_of asc + human_base_of hsc)) in *.
  destruct (sensitivity_adjust s p (1 - p)) as [a hm] eqn:Eadj.
  cbn [fst snd] in Hpure.
  exists a, hm, {| ai_features := af; human_features := hf |}.
  eexists. split; [exact Hpure|].
  split; [|split].
  - unfold analyze_text_st.
    erewrite st_bind_done by exact Ra. cbn beta iota.
    erewrite st_bind_done by exact Rh. cbn beta iota.
    do 2 st_step. rewrite Hc.
    erewrite st_bind_done by reflexivity. cbn beta iota.
    fold p. rewrite Eadj.
    do 1 st_step. reflexivity.
  - reflexivity.
  - unfold view_details. rewrite nth_frame. cbn [nth_error].
    change (dict_find [(lit "ai_features", (length H + 0)%nat);
                       (lit "human_features", (length H + 2)%nat)]
                      (lit "ai_features"))
      with (Some (length H + 0)%nat).
    change (dict_find [(lit "ai_features", (length H + 0)%nat);
                       (lit "human_features", (length H + 2)%nat)]
                      (lit "human_features"))
      with (Some (length H + 2)%nat).
    cbn beta iota.
    erewrite !flags_frame by reflexivity.
    reflexivity.
Qed.

End StoreFacts.

(** Two calls in a row on a store that holds the slider's value and the
    text: each creates its own five objects. *)
Example store_run_opinion_text :
  exists a hm h1 h2,
    analyze_text_st latin_lower latin_isspace latin_isupper opinion_text 0.8
                    [OFloat 0.75; OStr opinion_text]
    = Done (a, hm, 6%nat) h1 /\
    analyze_text_st latin_lower latin_isspace latin_isupper opinion_text 0.8
                    h1
    = Done (a, hm, 11%nat) h2 /\
    length h1 = 7%nat /\ length h2 = 12%nat /\
    view_details h2 6%nat = view_details h2 11%nat /\
    a == 27 # 74.
Proof.
  do 4 eexists.
  split; [vm_compute; reflexivity|].
  split; [vm_compute; reflexivity|].
  repeat split; vm_compute; reflexivity.
Qed.

(** * The claims of the specification *)

Section Claims.

Variable lower : str -> str.
Variable isspace : char -> bool.
Variable isupper : char -> bool.

(** C1. For every text and every sensitivity in [0.5, 1.0] the pipeline
    returns, and the Score Pair has both components in [0, 1] and sums
    to 1, before the sensitivity adjustment and after it. *)
Theorem C1_score_pair_invariant (text : str) (s : Q) :
  0.5 <= s <= 1 ->
  exists a0 h0 a h d,
    score_pair_before lower isspace isupper text = Ok (a0, h0) /\
    analyze_text lower isspace isupper text s = Ok (a, h, d) /\
    (0 <= a0 <= 1 /\ 0 <= h0 <= 1 /\ a0 + h0 == 1) /\
    (0 <= a <= 1 /\ 0 <= h <= 1 /\ a + h == 1).
Proof.
  intros _.
  destruct (pipeline_ok lower isspace isupper text)
    as (af & asc & hf & hsc & _ & _ & _ & _ & _ & Hp & Hb & Hs).
  cbv zeta in Hp, Hb, Hs.
  set (p := ai_base_of asc / (ai_base_of asc + human_base_of hsc)) in *.
  exists p, (1 - p).
  do 3 eexists.
  split; [exact Hb|]. split; [apply Hs|].
  split; [repeat split; lra|].
  apply sensitivity_adjust_pair; [exact Hp|reflexivity].
Qed.

(** C2. The combiner computes AI base = min(0.95, sum of the contributions
    of the true AI flags + 0.15) and Human base = min(0.95, sum of the
    contributions of the true Human flags + 0.10); the AI probability before
    adjustment is AI base / total when total > 0 and 0.5 otherwise, and the
    Human probability is 1 minus it.  The flags are those the pipeline
    returns in its result. *)
Theorem C2_score_combiner (text : str) :
  exists ai_flags ai_scores human_flags human_scores a h,
    ai_stage lower isspace isupper text = Ok (ai_flags, ai_scores) /\
    human_stage lower isspace text = Ok (human_flags, human_scores) /\
    ai_base_of ai_scores == spec_ai_base ai_flags /\
    human_base_of human_scores == spec_human_base human_flags /\
    score_pair_before lower isspace isupper text = Ok (a, h) /\
    a == spec_ai_probability ai_flags human_flags /\
    h == 1 - a /\
    forall s, exists a' h',
      analyze_text lower isspace isupper text s
      = Ok (a', h',
            {| ai_features := ai_flags; human_features := human_flags |}).
Proof.
  destruct (pipeline_ok lower isspace isupper text)
    as (af & asc & hf & hsc & Ha & Hh & Sa & Sh & (_ & _ & Hgt) & _ & Hb & Hs).
  cbv zeta in Hgt, Hb, Hs.
  assert (Ea : ai_base_of asc == spec_ai_base af).
  { unfold ai_base_of, spec_ai_base. rewrite Sa. reflexivity. }
  assert (Eh : human_base_of hsc == spec_human_base hf).
  { unfold human_base_of, spec_human_base. rewrite Sh.
    apply Q.min_compat; [reflexivity|]. lra. }
  exists af, asc, hf, hsc. do 2 eexists.
  split; [exact Ha|]. split; [exact Hh|].
  split; [exact Ea|]. split; [exact Eh|].
  split; [exact Hb|]. split; [|split; [reflexivity|]].
  - unfold spec_ai_probability.
    assert (Et : ai_base_of asc + human_base_of hsc
                 == spec_ai_base af + spec_human_base hf)
      by (rewrite Ea, Eh; reflexivity).
    unfold Qgtb in *. rewrite <- (Qltb_compat (Qeq_refl 0) Et), Hgt.
    rewrite Ea, Eh. reflexivity.
  - intro s. do 2 eexists. apply Hs.
Qed.

(** C3. The adjuster maps an AI probability p before adjustment to
    0.85 p when s < 0.75, to min(0.99, 1.15 p) when s > 0.85, and leaves it
    unchanged when 0.75 <= s <= 0.85, in particular at s = 0.75 and at
    s = 0.85; the Human probability is 1 minus the adjusted AI probability.
    The pipeline applies it to the pair the combiner produced. *)
Theorem C3_sensitivity_adjuster :
  (forall p s : Q,
     exists a' h',
       sensitivity_adjust s p (1 - p) = (a', h') /\
       (s < 0.75 -> a' == 0.85 * p) /\
       (0.85 < s -> a' == Qmin 0.99 (1.15 * p)) /\
       (0.75 <= s <= 0.85 -> a' == p) /\
       (s == 0.75 -> a' == p) /\
       (s == 0.85 -> a' == p) /\
       h' == 1 - a') /\
  (forall (text : str) (s : Q),
     exists p d,
       score_pair_before lower isspace isupper text = Ok (p, 1 - p) /\
       analyze_text lower isspace isupper text s
       = Ok (fst (sensitivity_adjust s p (1 - p)),
             snd (sensitivity_adjust s p (1 - p)), d)).
Proof.
  split.
  - intros p s. unfold sensitivity_adjust, Qgtb.
    destruct (Qltb s 0.75) eqn:E1; [|destruct (Qltb 0.85 s) eqn:E2].
    + apply Qltb_lt in E1.
      do 2 eexists. split; [reflexivity|].
      repeat split; intros; lra.
    + apply Qltb_ge in E1. apply Qltb_lt in E2.
      do 2 eexists. split; [reflexivity|].
      split; [intros; lra|]. split.
      { intros _. apply Q.min_compat; [reflexivity|]. lra. }
      repeat split; intros; lra.
    + apply Qltb_ge in E1. apply Qltb_ge in E2.
      do 2 eexists. split; [reflexivity|].
      repeat split; intros; lra.
  - intros text s.
    destruct (pipeline_ok lower isspace isupper text)
      as (af & asc & hf & hsc & _ & _ & _ & _ & _ & _ & Hb & Hs).
    cbv zeta in Hb, Hs. do 2 eexists. split; [exact Hb|apply Hs].
Qed.

(** C4. For a fixed text the final AI probability at sensitivity 0.6
    (multiplier 0.85) is at most the one at sensitivity 0.8 (unchanged),
    which is at most the one at sensitivity 0.9 (multiplier 1.15 capped at
    0.99); the three start from the same pair before adjustment. *)
Theorem C4_sensitivity_monotone (text : str) :
  exists p a1 h1 d1 a2 h2 d2 a3 h3 d3,
    score_pair_before lower isspace isupper text = Ok (p, 1 - p) /\
    analyze_text lower isspace isupper text 0.6 = Ok (a1, h1, d1) /\
    analyze_text lower isspace isupper text 0.8 = Ok (a2, h2, d2) /\
    analyze_text lower isspace isupper text 0.9 = Ok (a3, h3, d3) /\
    a1 == p * 0.85 /\ a2 == p /\ a3 == Qmin 0.99 (p * 1.15) /\
    a1 <= a2 /\ a2 <= a3.
Proof.
  destruct (pipeline_ok lower isspace isupper text)
    as (af & asc & hf & hsc & _ & _ & _ & _ & _ & Hp & Hb & Hs).
  cbv zeta in Hp, Hb, Hs.
  set (p := ai_base_of asc / (ai_base_of asc + human_base_of hsc)) in *.
  exists p. do 9 eexists.
  split; [exact Hb|].
  split; [apply (Hs 0.6)|]. split; [apply (Hs 0.8)|].
  split; [apply (Hs 0.9)|].
  unfold sensitivity_adjust.
  change (Qltb 0.6 0.75) with true.
  change (Qltb 0.8 0.75) with false. change (Qgtb 0.8 0.85) with false.
  change (Qltb 0.9 0.75) with false. change (Qgtb 0.9 0.85) with true.
  cbn [fst snd].
  split; [reflexivity|]. split; [reflexivity|]. split; [reflexivity|].
  split; [lra|]. apply Q.min_glb; lra.
Qed.

(** C5 (amended). The Formal-Language Score is min(1, k/3) where k is the
    number of vocabulary terms that occur at least once in the lowercased
    text, each term counted once however often it occurs; a text in which
    three distinct vocabulary terms occur scores 1. *)
Theorem C5_formal_language_terms_present (text : str) :
  exists f,
    detect_formal_language lower text = Ok f /\
    f = Qmin 1 (int (len (formal_terms_present lower text)) / 3) /\
    (forall ws : list str,
       NoDup ws -> length ws = 3%nat ->
       (forall w, In w ws ->
                  In w formal_words /\ contains w (lower text) = true) ->
       (3 <= len (formal_terms_present lower text))%Z /\ f == 1).
Proof.
  eexists. split; [apply detect_formal_language_eq|].
  split; [reflexivity|].
  intros ws Hnd Hlen Hws.
  assert (Hincl : incl ws (formal_terms_present lower text)).
  { intros w Hw. destruct (Hws w Hw) as [Hin Hc].
    apply filter_In. split; assumption. }
  pose proof (NoDup_incl_length Hnd Hincl) as Hle.
  assert (H3 : (3 <= len (formal_terms_present lower text))%Z)
    by (unfold len; lia).
  split; [exact H3|].
  fold (formal_terms_present lower text).
  apply Q.min_l.
  apply Qle_shift_div_l; [lra|].
  assert (H : int 3 <= int (len (formal_terms_present lower text))).
  { unfold int. rewrite <- Zle_Qle. exact H3. }
  change (int 3) with 3 in H. lra.
Qed.

(** C6. When the text splits into exactly three tokens, all identical,
    the Repeated-Phrase Count is 0: one window is formed, the table holds
    it with count 1, and 1 is not greater than 2. *)
Theorem C6_three_identical_tokens (text : str) (w : str) :
  split isspace (lower text) = [w; w; w] ->
  range (len [w; w; w] - 2) = [0%Z] /\
  phrase_table [w; w; w] = [(join (lit " ") [w; w; w], 1%Z)] /\
  (2 <? 1)%Z = false /\
  count_repeated_phrases lower isspace text = 0%Z.
Proof.
  intro H.
  split; [reflexivity|]. split; [reflexivity|]. split; [reflexivity|].
  unfold count_repeated_phrases. rewrite H. reflexivity.
Qed.

(** C7. Every extractor returns a signal within its bound: the
    Formal-Language Score, the Grammar-Perfection Score and the
    Structural-Regularity Score lie in [0, 1] and the Repeated-Phrase Count
    is a non-negative integer. *)
Theorem C7_extractor_bounds (text : str) :
  (exists f, detect_formal_language lower text = Ok f /\ 0 <= f <= 1) /\
  (0 <= count_repeated_phrases lower isspace text)%Z /\
  (exists g,
     check_grammar_perfection isspace isupper text = Ok g /\ 0 <= g <= 1) /\
  (exists r, analyze_structure isspace text = Ok r /\ 0 <= r <= 1).
Proof.
  split; [apply detect_formal_language_bounds|].
  split; [apply count_repeated_phrases_nonneg|].
  split; [apply check_grammar_perfection_bounds|].
  apply analyze_structure_bounds.
Qed.

(** C8. Two calls of the pipeline with identical text and identical
    sensitivity yield identical results, whatever the store holds when the
    first call starts.  Both calls return the scores and the flags that the
    text and the sensitivity determine, each call in a [details] of its
    own; the second call leaves what the first returned as it was, and
    neither call changes an object that existed before it. *)
Theorem C8_deterministic (h : heap) (text1 text2 : str) (s1 s2 : Q) :
  text1 = text2 -> s1 == s2 ->
  exists a hm D d1 d2 h1 h2,
    analyze_text_st lower isspace isupper text1 s1 h
    = Done (a, hm, d1) h1 /\
    analyze_text_st lower isspace isupper text2 s2 h1
    = Done (a, hm, d2) h2 /\
    view_details h1 d1 = Some D /\
    view_details h2 d2 = Some D /\
    view_details h2 d1 = Some D /\
    d1 <> d2 /\
    (forall p o,
       nth_error h p = Some o ->
       nth_error h1 p = Some o /\ nth_error h2 p = Some o) /\
    analyze_text lower isspace isupper text1 s1 = Ok (a, hm, D).
Proof.
  intros <- Hs.
  destruct (analyze_text_st_run lower isspace isupper text1 s1 h)
    as (a & hm & D & fr1 & P1 & R1 & L1 & V1).
  destruct (analyze_text_st_run lower isspace isupper text1 s2 (h ++ fr1))
    as (a2 & hm2 & D2 & fr2 & P2 & R2 & L2 & V2).
  rewrite <- (analyze_text_compat lower isspace isupper text1 Hs), P1 in P2.
  injection P2 as <- <- <-.
  exists a, hm, D, (length h + 4)%nat, (length (h ++ fr1) + 4)%nat,
         (h ++ fr1), ((h ++ fr1) ++ fr2).
  split; [exact R1|]. split; [exact R2|].
  split; [exact V1|]. split; [exact V2|].
  split; [apply view_extend, V1|].
  split; [rewrite length_app; lia|].
  split; [|exact P1].
  intros p o Hp. split.
  - apply nth_extend, Hp.
  - apply nth_extend, nth_extend, Hp.
Qed.

(** C9. No extractor raises: for every text each extractor with a
    division or an index returns a value (the other three are functions
    without such operations); the Repeated-Phrase Count is 0 for fewer than
    3 tokens and the Structural-Regularity Score is 0 for fewer than 2
    sentences.  The divisors that depend on the text are at least 1: the
    denominators max(1, tokens / k), and mean_len + 1 of the
    Structural-Regularity Score. *)
Theorem C9_extractors_total (text : str) :
  (exists v, detect_formal_language lower text = Ok v) /\
  (exists v, check_grammar_perfection isspace isupper text = Ok v) /\
  (exists v, analyze_structure isspace text = Ok v) /\
  (exists v, detect_natural_errors lower isspace text = Ok v) /\
  (exists v, detect_emotional_language lower isspace text = Ok v) /\
  (exists v, detect_casual_language lower isspace text = Ok v) /\
  (exists v, detect_personal_opinions lower isspace text = Ok v) /\
  ((len (split isspace (lower text)) < 3)%Z ->
   count_repeated_phrases lower isspace text = 0%Z) /\
  ((len (sentences_of isspace text) < 2)%Z ->
   analyze_structure isspace text = Ok 0) /\
  (forall k : Q, ~ k == 0 ->
     exists m, token_floor isspace text k = Ok m /\ 1 <= m) /\
  ((2 <= len (sentences_of isspace text))%Z ->
   exists v m,
     np_var (sentence_lengths isspace text) = Ok v /\
     np_mean (sentence_lengths isspace text) = Ok m /\
     1 <= m + 1 /\
     analyze_structure isspace text = Ok (1 - Qmin 1 (v / (m + 1) / 3))).
Proof.
  split.
  { destruct (detect_formal_language_bounds lower text) as [v [Hv _]].
    exists v. exact Hv. }
  split.
  { destruct (check_grammar_perfection_bounds isspace isupper text)
      as [v [Hv _]]. exists v. exact Hv. }
  split.
  { destruct (analyze_structure_bounds isspace text) as [v [Hv _]].
    exists v. exact Hv. }
  split; [apply detect_natural_errors_ok|].
  split; [apply detect_emotional_language_ok|].
  split; [apply detect_casual_language_ok|].
  split; [apply detect_personal_opinions_ok|].
  split.
  { intro H. unfold count_repeated_phrases.
    apply Z.ltb_lt in H. rewrite H. reflexivity. }
  split.
  { intro H. unfold analyze_structure.
    apply Z.ltb_lt in H. rewrite H. reflexivity. }
  split.
  { intros k Hk. rewrite token_floor_ok by exact Hk.
    eexists. split; [reflexivity|apply Q.le_max_l]. }
  intro H.
  destruct (analyze_structure_eq isspace text H)
    as (v & m & Hv & Hm & _ & H1 & Heq).
  exists v, m. repeat (split; [assumption|]). exact Heq.
Qed.

(** C10. The zero-total fallback of the combiner is never taken: the AI
    base is at least 0.15 and the Human base at least 0.10, so the total is
    at least 0.25, the test total > 0 succeeds, and the AI probability
    before adjustment is AI base / total. *)
Theorem C10_fallback_unreachable (text : str) :
  exists ai_flags ai_scores human_flags human_scores,
    let a := ai_base_of ai_scores in
    let h := human_base_of human_scores in
    ai_stage lower isspace isupper text = Ok (ai_flags, ai_scores) /\
    human_stage lower isspace text = Ok (human_flags, human_scores) /\
    0.15 <= a /\ 0.10 <= h /\ 0.25 <= a + h /\
    Qgtb (a + h) 0 = true /\
    score_combiner ai_scores human_scores
    = Ok (a / (a + h), 1 - a / (a + h)) /\
    score_pair_before lower isspace isupper text = Ok (a / (a + h), 1 - a / (a + h)).
Proof.
  destruct (pipeline_ok lower isspace isupper text)
    as (af & asc & hf & hsc & Ha & Hh & _ & _ & (Ba & Bh & Hgt) & _ & Hb & _).
  cbv zeta in Ba, Bh, Hgt, Hb.
  exists af, asc, hf, hsc. cbv zeta.
  split; [exact Ha|]. split; [exact Hh|].
  split; [lra|]. split; [lra|]. split; [lra|]. split; [exact Hgt|].
  split; [|exact Hb].
  unfold score_combiner. rewrite Hgt.
  rewrite truediv_ok by lra. reflexivity.
Qed.

End Claims.

(** * The claims on concrete texts, with the tables of Basic Latin *)

Lemma C1_score_pair_invariant_witness :
  0.5 <= 0.8 <= 1 /\
  exists a0 h0 a h d,
    score_pair_before latin_lower latin_isspace latin_isupper opinion_text
    = Ok (a0, h0) /\
    analyze_text latin_lower latin_isspace latin_isupper opinion_text 0.8
    = Ok (a, h, d) /\
    (0 <= a0 <= 1 /\ 0 <= h0 <= 1 /\ a0 + h0 == 1) /\
    (0 <= a <= 1 /\ 0 <= h <= 1 /\ a + h == 1).
Proof.
  assert (H : 0.5 <= 0.8 <= 1) by (split; vm_compute; discriminate).
  split; [exact H|].
  exact (@C1_score_pair_invariant latin_lower latin_isspace latin_isupper
           opinion_text 0.8 H).
Defined.

Lemma C3_sensitivity_adjuster_witness :
  0.6 < 0.75 /\
  exists a' h',
    sensitivity_adjust 0.6 0.5 (1 - 0.5) = (a', h') /\
    a' == 0.85 * 0.5 /\ h' == 1 - a'.
Proof.
  assert (H : 0.6 < 0.75) by (vm_compute; reflexivity).
  split; [exact H|].
  destruct (proj1 (C3_sensitivity_adjuster latin_lower latin_isspace
                     latin_isupper) 0.5 0.6)
    as (a' & h' & E & H1 & _ & _ & _ & _ & H6).
  exists a', h'.
  split; [exact E|]. split; [exact (H1 H)|exact H6].
Defined.

(** The text of the counterexample holds one vocabulary term three times:
    the specification's count is 3 and its score 1, the code's score 1/3. *)
Lemma C5_counterexample :
  count (latin_lower repeated_term_text) (lit "furthermore") = 3%Z /\
  spec_formal_occurrences latin_lower repeated_term_text = 3%Z /\
  spec_formal_language_score latin_lower repeated_term_text == 1 /\
  detect_formal_language latin_lower repeated_term_text = Ok (1 # 3) /\
  ~ (exists f,
       detect_formal_language latin_lower repeated_term_text = Ok f /\
       f == spec_formal_language_score latin_lower repeated_term_text) /\
  ~ (exists f,
       detect_formal_language latin_lower repeated_term_text = Ok f /\
       f == 1).
Proof.
  assert (E : detect_formal_language latin_lower repeated_term_text
              = Ok (1 # 3)) by (vm_compute; reflexivity).
  split; [vm_compute; reflexivity|].
  split; [vm_compute; reflexivity|].
  split; [vm_compute; reflexivity|].
  split; [exact E|].
  split; intros [f [Hf Hq]]; rewrite E in Hf; injection Hf as <-;
    vm_compute in Hq; discriminate Hq.
Qed.

Lemma C5_formal_language_terms_present_witness :
  exists f,
    detect_formal_language latin_lower three_terms_text = Ok f /\ f == 1.
Proof.
  destruct (C5_formal_language_terms_present latin_lower three_terms_text)
    as (f & Hf & _ & H).
  exists f. split; [exact Hf|].
  apply (H [lit "however"; lit "moreover"; lit "therefore"]).
  - vm_compute. repeat constructor; simpl; intuition discriminate.
  - reflexivity.
  - intros w Hw. vm_compute in Hw.
    destruct Hw as [<-|[<-|[<-|[]]]]; vm_compute; intuition.
Defined.

Lemma C6_three_identical_tokens_witness :
  split latin_isspace (latin_lower three_tokens_text)
  = [lit "go"; lit "go"; lit "go"] /\
  count_repeated_phrases latin_lower latin_isspace three_tokens_text = 0%Z.
Proof.
  assert (H : split latin_isspace (latin_lower three_tokens_text)
              = [lit "go"; lit "go"; lit "go"]) by (vm_compute; reflexivity).
  split; [exact H|].
  apply (@C6_three_identical_tokens latin_lower latin_isspace
           three_tokens_text (lit "go") H).
Defined.

Lemma C8_deterministic_witness :
  opinion_text = opinion_text /\ 0.8 == 4 # 5 /\
  exists a hm D d1 d2 h1 h2,
    analyze_text_st latin_lower latin_isspace latin_isupper opinion_text 0.8
                    [OFloat 0.75; OStr opinion_text]
    = Done (a, hm, d1) h1 /\
    analyze_text_st latin_lower latin_isspace latin_isupper opinion_text
                    (4 # 5) h1
    = Done (a, hm, d2) h2 /\
    view_details h2 d2 = Some D /\
    view_details h2 d1 = Some D /\
    d1 <> d2.
Proof.
  assert (Hs : 0.8 == 4 # 5) by (vm_compute; reflexivity).
  split; [reflexivity|]. split; [exact Hs|].
  destruct (@C8_deterministic latin_lower latin_isspace latin_isupper
              [OFloat 0.75; OStr opinion_text]
              opinion_text opinion_text 0.8 (4 # 5) eq_refl Hs)
    as (a & hm & D & d1 & d2 & h1 & h2 & R1 & R2 & _ & V2 & V1 & Hd & _).
  exists a, hm, D, d1, d2, h1, h2.
  repeat (split; [assumption|]). exact Hd.
Defined.

Lemma C9_extractors_total_witness :
  count_repeated_phrases latin_lower latin_isspace (lit "") = 0%Z /\
  analyze_structure latin_isspace (lit "") = Ok 0 /\
  exists m, token_floor latin_isspace (lit "") 10 = Ok m /\ 1 <= m.
Proof.
  destruct (C9_extractors_total latin_lower latin_isspace latin_isupper
              (lit ""))
    as (_ & _ & _ & _ & _ & _ & _ & Hr & Hs & Hk & _).
  split; [apply Hr; vm_compute; reflexivity|].
  split; [apply Hs; vm_compute; reflexivity|].
  apply Hk. vm_compute. discriminate.
Defined.

(** * Further properties of the code *)

(** ** Integers among the rationals *)

Lemma int_le (a b : Z) : (a <= b)%Z <-> int a <= int b.
Proof. unfold int. rewrite Zle_Qle. reflexivity. Qed.

Lemma int_lt (a b : Z) : (a < b)%Z <-> int a < int b.
Proof. unfold int. rewrite Zlt_Qlt. reflexivity. Qed.

Lemma int_mult (a b : Z) : int (a * b) == int a * int b.
Proof. unfold int. rewrite inject_Z_mult. reflexivity. Qed.

Lemma int_plus (a b : Z) : int (a + b) == int a + int b.
Proof. unfold int. rewrite inject_Z_plus. reflexivity. Qed.

(** A positive threshold is exceeded by an integer exactly when the
    integer is at least 1, for thresholds below 1. *)
Lemma int_above (c : Q) (k : Z) :
  0 <= c -> c < 1 -> (c < int k <-> (1 <= k)%Z).
Proof.
  intros H0 H1. split; intro H.
  - assert (Hk : int 0 < int k) by (change (int 0) with 0; lra).
    apply int_lt in Hk. lia.
  - apply int_le in H. change (int 1) with 1 in H. lra.
Qed.

Lemma Qlt_div_iff (c a m : Q) : 0 < m -> (c < a / m <-> c * m < a).
Proof.
  intro Hm. split; intro H.
  - apply (Qmult_lt_compat_r _ _ m Hm) in H.
    setoid_replace (a / m * m) with a in H by (field; lra). exact H.
  - apply Qlt_shift_div_l; assumption.
Qed.

Lemma Qdiv_lt_iff (c a m : Q) : 0 < m -> (a / m < c <-> a < c * m).
Proof.
  intro Hm. split; intro H.
  - apply (Qmult_lt_compat_r _ _ m Hm) in H.
    setoid_replace (a / m * m) with a in H by (field; lra). exact H.
  - apply Qlt_shift_div_r; assumption.
Qed.

(** ** The range of the scores *)

Lemma ai_group_range (b1 b2 b3 b4 b5 : bool) :
  sumQ (contributions_of (map snd ai_table) [b1; b2; b3; b4; b5]) <= 0.59.
Proof.
  destruct b1, b2, b3, b4, b5; vm_compute; discriminate.
Qed.

Lemma human_group_range (b1 b2 b3 b4 b5 : bool) :
  sumQ (contributions_of (map snd human_table) [b1; b2; b3; b4; b5]) <= 0.64.
Proof.
  destruct b1, b2, b3, b4, b5; vm_compute; discriminate.
Qed.

Lemma sensitivity_adjust_cases (s p h : Q) :
  (s < 0.75 /\
   sensitivity_adjust s p h = (p * 0.85, 1 - p * 0.85)) \/
  (0.85 < s /\
   sensitivity_adjust s p h
   = (Qmin 0.99 (p * 1.15), 1 - Qmin 0.99 (p * 1.15))) \/
  (0.75 <= s <= 0.85 /\ sensitivity_adjust s p h = (p, h)).
Proof.
  unfold sensitivity_adjust, Qgtb.
  destruct (Qltb s 0.75) eqn:E1; [|destruct (Qltb 0.85 s) eqn:E2].
  - apply Qltb_lt in E1. left. split; [exact E1|reflexivity].
  - apply Qltb_lt in E2. right. left. split; [exact E2|reflexivity].
  - apply Qltb_ge in E1. apply Qltb_ge in E2.
    right. right. split; [split; assumption|reflexivity].
Qed.

Lemma conclusion_cases (a : Q) :
  (0.75 < a /\ conclusion a = HighlyLikelyAI) \/
  (0.55 < a <= 0.75 /\ conclusion a = PossiblyAI) \/
  (a <= 0.55 /\ conclusion a = LikelyHuman).
Proof.
  unfold conclusion, Qgtb.
  destruct (Qltb 0.75 a) eqn:E1; [|destruct (Qltb 0.55 a) eqn:E2].
  - apply Qltb_lt in E1. left. split; [exact E1|reflexivity].
  - apply Qltb_ge in E1. apply Qltb_lt in E2.
    right. left. split; [split; assumption|reflexivity].
  - apply Qltb_ge in E2. right. right. split; [exact E2|reflexivity].
Qed.

Section ScoreRange.

Variable lower : str -> str.
Variable isspace : char -> bool.
Variable isupper : char -> bool.

Lemma stages_range (text : str) :
  exists ai_flags ai_scores human_flags human_scores,
    ai_stage lower isspace isupper text = Ok (ai_flags, ai_scores) /\
    human_stage lower isspace text = Ok (human_flags, human_scores) /\
    0 <= sumQ ai_scores <= 0.59 /\ 0 <= sumQ human_scores <= 0.64.
Proof.
  destruct (ai_stage_shape lower isspace isupper text)
    as (a1 & a2 & a3 & a4 & a5 & Ha).
  destruct (human_stage_shape lower isspace text)
    as (h1 & h2 & h3 & h4 & h5 & Hh).
  do 4 eexists. split; [exact Ha|]. split; [exact Hh|].
  split; split.
  - apply ai_group_sum.
  - apply ai_group_range.
  - apply human_group_sum.
  - apply human_group_range.
Qed.

(** The caps of 0.95 on the two bases are never reached: with all five
    flags of a group true the base is 0.74. *)
Theorem bases_never_capped (text : str) :
  exists ai_flags ai_scores human_flags human_scores,
    ai_stage lower isspace isupper text = Ok (ai_flags, ai_scores) /\
    human_stage lower isspace text = Ok (human_flags, human_scores) /\
    ai_base_of ai_scores == sumQ ai_scores + 0.15 /\
    human_base_of human_scores == sumQ human_scores + 0.1 /\
    0.15 <= ai_base_of ai_scores <= 0.74 /\
    0.1 <= human_base_of human_scores <= 0.74.
Proof.
  destruct (stages_range text) as (af & asc & hf & hsc & Ha & Hh & Ra & Rh).
  exists af, asc, hf, hsc.
  split; [exact Ha|]. split; [exact Hh|].
  assert (Ea : ai_base_of asc == sumQ asc + 0.15)
    by (unfold ai_base_of; apply Q.min_r; lra).
  assert (Eh : human_base_of hsc == sumQ hsc + 0.1)
    by (unfold human_base_of; apply Q.min_r; lra).
  split; [exact Ea|]. split; [exact Eh|].
  rewrite Ea, Eh. split; lra.
Qed.

(** The pair before adjustment and its range, for every text. *)
Lemma score_before_range (text : str) :
  exists p ai_flags human_flags,
    15 # 89 <= p <= 37 # 42 /\
    score_pair_before lower isspace isupper text = Ok (p, 1 - p) /\
    forall s,
      analyze_text lower isspace isupper text s
      = Ok (fst (sensitivity_adjust s p (1 - p)),
            snd (sensitivity_adjust s p (1 - p)),
            {| ai_features := ai_flags; human_features := human_flags |}).
Proof.
  destruct (stages_range text) as (af & asc & hf & hsc & Ha & Hh & Ra & Rh).
  assert (Ea : ai_base_of asc == sumQ asc + 0.15)
    by (unfold ai_base_of; apply Q.min_r; lra).
  assert (Eh : human_base_of hsc == sumQ hsc + 0.1)
    by (unfold human_base_of; apply Q.min_r; lra).
  assert (Pa : 0 <= sumQ asc) by lra.
  assert (Ph : 0 <= sumQ hsc) by lra.
  destruct (score_combiner_ok asc hsc Pa Ph) as (_ & _ & _ & Hc).
  set (a := ai_base_of asc) in *. set (h := human_base_of hsc) in *.
  exists (a / (a + h)), af, hf.
  split.
  - split.
    + apply Qle_shift_div_l; lra.
    + apply Qle_shift_div_r; lra.
  - split.
    + apply (analyze_text_stages lower isspace isupper text 0 Ha Hh Hc).
    + intro s.
      apply (analyze_text_stages lower isspace isupper text s Ha Hh Hc).
Qed.

(** The AI probability before adjustment lies between 15/89 and 37/42. *)
Theorem score_before_adjustment_range (text : str) :
  exists p,
    score_pair_before lower isspace isupper text = Ok (p, 1 - p) /\
    15 # 89 <= p <= 37 # 42.
Proof.
  destruct (score_before_range text) as (p & af & hf & Hp & Hb & _).
  exists p. split; assumption.
Qed.

(** Neither probability is ever 0 or 1: for every text and sensitivity the
    AI probability is between 0.14 and 0.99. *)
Theorem final_scores_never_certain (text : str) (s : Q) :
  exists a h d,
    analyze_text lower isspace isupper text s = Ok (a, h, d) /\
    0.14 <= a <= 0.99 /\ 0.01 <= h <= 0.86 /\ h == 1 - a.
Proof.
  destruct (score_before_range text) as (p & af & hf & Hp & _ & Hs).
  do 3 eexists. split; [apply Hs|].
  destruct (sensitivity_adjust_cases s p (1 - p))
    as [[_ E]|[[_ E]|[_ E]]]; rewrite E; cbn [fst snd].
  - repeat split; lra.
  - pose proof (Q.le_min_l 0.99 (p * 1.15)).
    assert (0.14 <= Qmin 0.99 (p * 1.15)) by (apply Q.min_glb; lra).
    repeat split; lra.
  - repeat split; lra.
Qed.

(** Raising the sensitivity never lowers the AI probability, never raises
    the Human probability, leaves the flags unchanged and never moves the
    banner towards the human side. *)
Theorem sensitivity_monotone (text : str) (s1 s2 : Q) :
  s1 <= s2 ->
  exists a1 h1 a2 h2 d,
    analyze_text lower isspace isupper text s1 = Ok (a1, h1, d) /\
    analyze_text lower isspace isupper text s2 = Ok (a2, h2, d) /\
    a1 <= a2 /\ h2 <= h1 /\
    (conclusion a1 = HighlyLikelyAI -> conclusion a2 = HighlyLikelyAI) /\
    (conclusion a2 = LikelyHuman -> conclusion a1 = LikelyHuman).
Proof.
  intro Hle.
  destruct (score_before_range text) as (p & af & hf & Hp & _ & Hs).
  do 5 eexists. split; [apply Hs|]. split; [apply Hs|].
  set (r1 := sensitivity_adjust s1 p (1 - p)).
  set (r2 := sensitivity_adjust s2 p (1 - p)).
  assert (H : fst r1 <= fst r2 /\ snd r2 <= snd r1).
  { subst r1 r2.
    pose proof (Q.le_min_l 0.99 (p * 1.15)) as M1.
    assert (M2 : p <= Qmin 0.99 (p * 1.15)) by (apply Q.min_glb; lra).
    destruct (sensitivity_adjust_cases s1 p (1 - p))
      as [[C1 E1]|[[C1 E1]|[C1 E1]]];
    destruct (sensitivity_adjust_cases s2 p (1 - p))
      as [[C2 E2]|[[C2 E2]|[C2 E2]]];
    rewrite E1, E2; cbn [fst snd]; split; lra. }
  destruct H as [Ha Hh].
  split; [exact Ha|]. split; [exact Hh|].
  destruct (conclusion_cases (fst r1)) as [[B1 V1]|[[B1 V1]|[B1 V1]]];
  destruct (conclusion_cases (fst r2)) as [[B2 V2]|[[B2 V2]|[B2 V2]]];
  rewrite V1, V2; split; intro; try reflexivity; try discriminate;
    exfalso; lra.
Qed.

End ScoreRange.

(** ** The feature flags and the page *)

Section PageFacts.

Variable lower : str -> str.
Variable isspace : char -> bool.
Variable isupper : char -> bool.

(** The result always carries the same five AI features and five Human
    features, in the order of the source, and each flag is the threshold
    test of its extractor's signal: no assignment overwrites another. *)
Theorem analyze_text_flags (text : str) (s : Q) :
  exists formal grammar structure errors emotion casual opinion a h d,
    detect_formal_language lower text = Ok formal /\
    check_grammar_perfection isspace isupper text = Ok grammar /\
    analyze_structure isspace text = Ok structure /\
    detect_natural_errors lower isspace text = Ok errors /\
    detect_emotional_language lower isspace text = Ok emotion /\
    detect_casual_language lower isspace text = Ok casual /\
    detect_personal_opinions lower isspace text = Ok opinion /\
    analyze_text lower isspace isupper text s = Ok (a, h, d) /\
    ai_features d
    = [ (lit "重複短語多",
         (3 <? count_repeated_phrases lower isspace text)%Z);
        (lit "過度正式", Qgtb formal 0.6);
        (lit "語法完美", Qgtb grammar 0.8);
        (lit "模式化短語", check_formulaic_patterns lower text);
        (lit "結構過規律", Qgtb structure 0.7) ] /\
    human_features d
    = [ (lit "使用縮寫", (1 <? count_contractions lower text)%Z);
        (lit "自然錯誤", Qgtb errors 0.01);
        (lit "情感表現", Qgtb emotion 0.05);
        (lit "口語用詞", Qgtb casual 0.05);
        (lit "個人觀點", Qgtb opinion 0.05) ].
Proof.
  destruct (detect_formal_language_bounds lower text) as [f [Hf _]].
  destruct (check_grammar_perfection_bounds isspace isupper text)
    as [g [Hg _]].
  destruct (analyze_structure_bounds isspace text) as [r [Hr _]].
  destruct (detect_natural_errors_ok lower isspace text) as [e He].
  destruct (detect_emotional_language_ok lower isspace text) as [m Hm].
  destruct (detect_casual_language_ok lower isspace text) as [c Hc].
  destruct (detect_personal_opinions_ok lower isspace text) as [o Ho].
  exists f, g, r, e, m, c, o.
  destruct (pipeline_ok lower isspace isupper text)
    as (af & asc & hf & hsc & Ha & Hh & _ & _ & _ & _ & _ & Hs).
  cbv zeta in Hs.
  do 3 eexists.
  repeat (split; [eassumption|]).
  split; [apply Hs|]. cbn [ai_features human_features].
  split.
  - unfold ai_stage in Ha. rewrite Hf, Hg, Hr in Ha. cbn [bind] in Ha.
    injection Ha as <- _. reflexivity.
  - unfold human_stage in Hh. rewrite He, Hm, Hc, Ho in Hh.
    cbn [bind] in Hh. injection Hh as <- _. reflexivity.
Qed.

Lemma on_analyze_cases (user_text : str) (s : Q) :
  ((len (strip isspace user_text) < 20)%Z /\
   on_analyze lower isspace isupper user_text s = Ok Rejected) \/
  ((20 <= len (strip isspace user_text))%Z /\
   exists a h d,
     analyze_text lower isspace isupper user_text s = Ok (a, h, d) /\
     on_analyze lower isspace isupper user_text s
     = Ok (Report a h d (conclusion a))).
Proof.
  unfold on_analyze.
  destruct (len (strip isspace user_text) <? 20)%Z eqn:E.
  - apply Z.ltb_lt in E. left. split; [exact E|].
    rewrite orb_true_r. reflexivity.
  - apply Z.ltb_ge in E. right. split; [exact E|].
    assert (T : truthy user_text = true).
    { destruct user_text; [|reflexivity].
      unfold len in E. simpl in E. lia. }
    rewrite T. cbn [negb orb].
    destruct (pipeline_ok lower isspace isupper user_text)
      as (af & asc & hf & hsc & _ & _ & _ & _ & _ & _ & _ & Hs).
    cbv zeta in Hs. do 3 eexists.
    split; [apply Hs|]. rewrite Hs. reflexivity.
Qed.

(** The handler never raises: it shows the length error exactly when the
    stripped text has fewer than 20 characters (the emptiness test adds
    nothing), and otherwise the result of the analysis with its banner. *)
Theorem on_analyze_outcome (user_text : str) (s : Q) :
  (on_analyze lower isspace isupper user_text s = Ok Rejected
   <-> (len (strip isspace user_text) < 20)%Z) /\
  (on_analyze lower isspace isupper user_text s = Ok Rejected \/
   exists a h d,
     analyze_text lower isspace isupper user_text s = Ok (a, h, d) /\
     on_analyze lower isspace isupper user_text s
     = Ok (Report a h d (conclusion a))).
Proof.
  destruct (on_analyze_cases user_text s)
    as [[Hlt E]|[Hge (a & h & d & Ea & E)]].
  - split; [split; [intros _; exact Hlt|intros _; exact E]|].
    left. exact E.
  - split.
    + split; [|intro; lia]. rewrite E. intro H. discriminate H.
    + right. exists a, h, d. split; assumption.
Qed.

(** With a sensitivity below 0.75 the AI probability stays below 0.75, so
    the banner "highly likely AI" is never shown. *)
Theorem low_sensitivity_banner (user_text : str) (s : Q) :
  s < 0.75 ->
  on_analyze lower isspace isupper user_text s = Ok Rejected \/
  exists a h d v,
    on_analyze lower isspace isupper user_text s = Ok (Report a h d v) /\
    a < 0.75 /\ v <> HighlyLikelyAI.
Proof.
  intro Hs.
  destruct (on_analyze_cases user_text s)
    as [[_ E]|[_ (a & h & d & Ea & E)]]; [left; exact E|right].
  exists a, h, d, (conclusion a). split; [exact E|].
  destruct (score_before_range lower isspace isupper user_text)
    as (p & af & hf & Hp & _ & Hr).
  rewrite Hr in Ea.
  destruct (sensitivity_adjust_cases s p (1 - p))
    as [[_ C]|[[C _]|[C _]]]; [|exfalso; lra|exfalso; lra].
  rewrite C in Ea. cbn [fst snd] in Ea. injection Ea as <- _ _.
  assert (Ha : p * 0.85 < 0.75) by lra.
  split; [exact Ha|].
  destruct (conclusion_cases (p * 0.85)) as [[B V]|[[B V]|[B V]]];
    rewrite V; [exfalso; lra|discriminate|discriminate].
Qed.

(** A text on which no feature fires still gets an AI probability of 0.6
    before adjustment, from the baselines 0.15 and 0.1; with a sensitivity
    between 0.75 and 0.85 its banner is "possibly AI". *)
Theorem no_flag_baseline (text : str) (s a h : Q) (d : details) :
  analyze_text lower isspace isupper text s = Ok (a, h, d) ->
  Forall (fun flag => snd flag = false) (ai_features d ++ human_features d) ->
  exists p,
    score_pair_before lower isspace isupper text = Ok (p, 1 - p) /\
    p == 3 # 5 /\
    (0.75 <= s <= 0.85 -> a == 3 # 5 /\ conclusion a = PossiblyAI).
Proof.
  intros Ha HF.
  destruct (ai_stage_shape lower isspace isupper text)
    as (a1 & a2 & a3 & a4 & a5 & Sa).
  destruct (human_stage_shape lower isspace text)
    as (h1 & h2 & h3 & h4 & h5 & Sh).
  destruct (ai_group_sum a1 a2 a3 a4 a5) as [_ Pa].
  destruct (human_group_sum h1 h2 h3 h4 h5) as [_ Ph].
  destruct (score_combiner_ok _ _ Pa Ph) as (_ & _ & _ & Hc).
  destruct (analyze_text_stages lower isspace isupper text s Sa Sh Hc)
    as [Hb Hr].
  rewrite Hr in Ha. injection Ha as Ea _ Ed. subst d.
  cbn [ai_features human_features] in HF.
  apply Forall_app in HF. destruct HF as [Fa Fh].
  unfold flags_of in Fa, Fh.
  cbn [map fst ai_table human_table combine] in Fa, Fh.
  repeat match goal with
         | H : Forall _ (_ :: _) |- _ =>
           let Hx := fresh "Hx" in
           apply Forall_cons_iff in H; destruct H as [Hx H];
           cbn [snd] in Hx
         end.
  subst a1 a2 a3 a4 a5 h1 h2 h3 h4 h5.
  set (all_false := [false; false; false; false; false]) in *.
  set (ab := ai_base_of (contributions_of (map snd ai_table) all_false))
    in *.
  set (hb := human_base_of
               (contributions_of (map snd human_table) all_false)) in *.
  assert (Ep : ab / (ab + hb) == 3 # 5) by (vm_compute; reflexivity).
  exists (ab / (ab + hb)). split; [exact Hb|].
  split; [exact Ep|].
  intro Hs.
  destruct (sensitivity_adjust_cases s (ab / (ab + hb)) (1 - ab / (ab + hb)))
    as [[C _]|[[C _]|[_ E]]]; [exfalso; lra|exfalso; lra|].
  assert (Ea' : fst (sensitivity_adjust s (ab / (ab + hb))
                       (1 - ab / (ab + hb))) = a) by exact Ea.
  clear Ea. rewrite E in Ea'. cbn [fst] in Ea'. subst a.
  split; [exact Ep|].
  destruct (conclusion_cases (ab / (ab + hb))) as [[B V]|[[B V]|[B V]]];
    rewrite V; [exfalso; lra|reflexivity|exfalso; lra].
Qed.

End PageFacts.

(** ** Substring tests and occurrence counts *)

Lemma contains_tail (sub : str) (c : char) (s : str) :
  contains sub (c :: s) = false -> contains sub s = false.
Proof.
  cbn [contains]. intro H. apply orb_false_iff in H. apply H.
Qed.

Lemma contains_head (sub : str) (s : str) :
  contains sub s = false -> startswith sub s = false.
Proof.
  destruct s; cbn [contains]; intro H; apply orb_false_iff in H; apply H.
Qed.

Lemma count_from_absent (sub : str) (s : str) (skip : nat) :
  contains sub s = false -> count_from sub skip s = 0%Z.
Proof.
  revert skip.
  induction s as [|c s IH]; intros skip H; cbn [count_from].
  - reflexivity.
  - pose proof (contains_tail _ _ _ H) as Ht.
    destruct skip as [|k]; [|apply IH, Ht].
    rewrite (contains_head _ _ H). apply IH, Ht.
Qed.

Lemma count_from_present (sub : str) (s : str) :
  sub <> [] -> contains sub s = true -> (1 <= count_from sub 0 s)%Z.
Proof.
  intro Hne.
  induction s as [|c s IH]; intro H.
  - destruct sub; [congruence|discriminate H].
  - cbn [count_from]. cbn [contains] in H.
    destruct (startswith sub (c :: s)).
    + pose proof (count_from_nonneg sub s (pred (length sub))). lia.
    + apply IH. exact H.
Qed.

(** For a non-empty pattern, [s.count(sub)] is positive exactly when
    [sub in s]. *)
Lemma count_positive_iff (s sub : str) :
  sub <> [] -> (contains sub s = true <-> (1 <= count s sub)%Z).
Proof.
  intro Hne. unfold count.
  destruct sub as [|x sub]; [congruence|].
  split.
  - apply count_from_present. exact Hne.
  - intro H. destruct (contains (x :: sub) s) eqn:E; [reflexivity|].
    rewrite (@count_from_absent _ _ 0%nat E) in H. lia.
Qed.

Lemma count_absent (s sub : str) :
  sub <> [] -> contains sub s = false -> count s sub = 0%Z.
Proof.
  intros Hne H. pose proof (count_nonneg s sub) as Hn.
  destruct (Z.eq_dec (count s sub) 0) as [E|E]; [exact E|].
  assert (H1 : (1 <= count s sub)%Z) by lia.
  apply (@count_positive_iff s sub Hne) in H1. congruence.
Qed.

Lemma fold_add_map {A} (f : A -> Z) (l : list A) (a : Z) :
  fold_left (fun acc x => (acc + f x)%Z) l a = (a + sumZ (map f l))%Z.
Proof.
  revert a.
  induction l as [|x l IH]; intro a; cbn [fold_left map].
  - unfold sumZ. simpl. lia.
  - rewrite IH, sumZ_cons. lia.
Qed.

Lemma filter_length_le {A} (p : A -> bool) (l : list A) :
  (len (filter p l) <= len l)%Z.
Proof.
  unfold len.
  induction l as [|x l IH]; cbn [filter length]; [lia|].
  destruct (p x); cbn [length]; lia.
Qed.

Lemma int_between (c : Q) (j k : Z) :
  int j <= c -> c < int (j + 1) -> (c < int k <-> (j + 1 <= k)%Z).
Proof.
  intros Hj Hj1. split; intro H.
  - assert (Hk : int j < int k) by lra. apply int_lt in Hk. lia.
  - apply int_le in H. lra.
Qed.

(** The flag tests of the ratio extractors, over the integers. *)
Lemma presence_flag_iff (k n : Z) :
  0.05 < int k / Qmax 1 (int n / 5) <-> (1 <= k /\ n < 100 * k)%Z.
Proof.
  set (x := int n / 5).
  assert (Hx : int n == 5 * x) by (unfold x; field).
  assert (Hm : 1 <= Qmax 1 x) by apply Q.le_max_l.
  rewrite Qlt_div_iff by lra.
  rewrite <- (@int_above 0.05 k) by lra.
  rewrite (int_lt n (100 * k)), int_mult. change (int 100) with 100.
  destruct (Q.max_spec 1 x) as [[Hc E]|[Hc E]]; rewrite E; split; intro H;
    try split; try lra.
Qed.

Lemma error_flag_iff (e n : Z) :
  0.01 < int e / Qmax 1 (int n / 10) <-> (1 <= e /\ n < 1000 * e)%Z.
Proof.
  set (x := int n / 10).
  assert (Hx : int n == 10 * x) by (unfold x; field).
  assert (Hm : 1 <= Qmax 1 x) by apply Q.le_max_l.
  rewrite Qlt_div_iff by lra.
  rewrite <- (@int_above 0.01 e) by lra.
  rewrite (int_lt n (1000 * e)), int_mult. change (int 1000) with 1000.
  destruct (Q.max_spec 1 x) as [[Hc E]|[Hc E]]; rewrite E; split; intro H;
    try split; try lra.
Qed.

(** ** When the flags of the extractors fire *)

Section SignalFacts.

Variable lower : str -> str.
Variable isspace : char -> bool.
Variable isupper : char -> bool.

(** The flag "overly formal" fires exactly when at least two terms of
    the vocabulary occur in the lowercased text. *)
Theorem formal_flag_iff (text : str) :
  exists f,
    detect_formal_language lower text = Ok f /\
    (Qgtb f 0.6 = true
     <-> (2 <= len (formal_terms_present lower text))%Z).
Proof.
  eexists. split; [apply detect_formal_language_eq|].
  fold (formal_terms_present lower text).
  set (k := len (formal_terms_present lower text)).
  unfold Qgtb. rewrite Qltb_lt, Q.min_glb_lt_iff.
  rewrite Qlt_div_iff by lra.
  rewrite <- (@int_between (0.6 * 3) 1 k)
    by (change (int 1) with 1; change (int (1 + 1)) with 2; lra).
  split; [intros [_ H]; exact H|intro H; split; [lra|exact H]].
Qed.

(** A ratio extractor over a vocabulary: the number of terms present in
    the lowercased text over max(1, tokens / 5). *)
Lemma presence_ratio (vocab : list str) (text : str) :
  let k := len (filter (fun w => contains w (lower text)) vocab) in
  exists r,
    (m <- token_floor isspace text 5 ;;
     truediv
       (int (sumZ (map (fun _ => 1%Z)
                       (filter (fun w => contains w (lower text)) vocab))))
       m) = Ok r /\
    0 <= r <= int (len vocab) /\
    (Qgtb r 0.05 = true
     <-> (1 <= k /\ len (split isspace text) < 100 * k)%Z).
Proof.
  intro k. rewrite sumZ_ones. fold k.
  rewrite token_floor_ok by (intro H; discriminate H). cbn [bind].
  set (m := Qmax 1 _).
  assert (Hm : 1 <= m) by apply Q.le_max_l.
  rewrite truediv_ok by lra.
  eexists. split; [reflexivity|].
  assert (Hk0 : 0 <= int k) by apply int_nonneg, len_nonneg.
  assert (Hk1 : int k <= int (len vocab))
    by (apply (proj1 (int_le _ _)), filter_length_le).
  split.
  - split.
    + apply Qdiv_nonneg; lra.
    + apply Qle_shift_div_r; [lra|]. nra.
  - unfold Qgtb. rewrite Qltb_lt. apply presence_flag_iff.
Qed.

(** The three ratio extractors return a ratio between 0 and the size of
    their vocabulary, and their flag fires exactly when at least one term
    is present and the text has fewer than 100 tokens per term present. *)
Theorem presence_ratio_flags (text : str) :
  let n := len (split isspace text) in
  let present vocab :=
    len (filter (fun w => contains w (lower text)) vocab) in
  (exists r,
     detect_emotional_language lower isspace text = Ok r /\
     0 <= r <= 17 /\
     (Qgtb r 0.05 = true
      <-> (1 <= present emotional /\ n < 100 * present emotional)%Z)) /\
  (exists r,
     detect_casual_language lower isspace text = Ok r /\
     0 <= r <= 14 /\
     (Qgtb r 0.05 = true
      <-> (1 <= present casual /\ n < 100 * present casual)%Z)) /\
  (exists r,
     detect_personal_opinions lower isspace text = Ok r /\
     0 <= r <= 11 /\
     (Qgtb r 0.05 = true
      <-> (1 <= present opinions /\ n < 100 * present opinions)%Z)).
Proof.
  cbv zeta. split; [|split].
  - apply (presence_ratio emotional text).
  - apply (presence_ratio casual text).
  - apply (presence_ratio opinions text).
Qed.

(** The Natural-Error Ratio is not negative, and its flag fires exactly
    when a doubled word occurs and the text has fewer than 1000 tokens per
    occurrence. *)
Theorem natural_error_flag (text : str) :
  let e := sumZ (map (fun w => count (lower text) w) double_words) in
  exists r,
    detect_natural_errors lower isspace text = Ok r /\
    0 <= r /\
    (Qgtb r 0.01 = true
     <-> (1 <= e /\ len (split isspace text) < 1000 * e)%Z).
Proof.
  intro e. unfold detect_natural_errors.
  rewrite (fold_add_map (fun w => count (lower text) w) double_words 0).
  rewrite Z.add_0_l. fold e.
  rewrite token_floor_ok by (intro H; discriminate H). cbn [bind].
  set (m := Qmax 1 _).
  assert (Hm : 1 <= m) by apply Q.le_max_l.
  rewrite truediv_ok by lra.
  eexists. split; [reflexivity|].
  assert (He : (0 <= e)%Z).
  { apply sumZ_nonneg, Forall_forall. intros z Hz.
    apply in_map_iff in Hz. destruct Hz as [w [<- _]]. apply count_nonneg. }
  split.
  - apply Qdiv_nonneg; [apply int_nonneg, He|lra].
  - unfold Qgtb. rewrite Qltb_lt. apply error_flag_iff.
Qed.

End SignalFacts.

(** ** The Grammar-Perfection Score *)

Lemma count_if_pure {A} (p : A -> result bool) (q : A -> bool) (l : list A) :
  (forall x, p x = Ok (q x)) -> count_if p l = Ok (len (filter q l)).
Proof.
  intro Hp. unfold len.
  induction l as [|x l IH]; cbn [count_if filter].
  - reflexivity.
  - rewrite Hp, IH. cbn [bind].
    destruct (q x); cbn [length]; f_equal; lia.
Qed.

Lemma grammar_flag_arith (e n : Z) :
  (0 <= e)%Z ->
  (0.8 < Qmax 0 (1 - int e / Qmax 1 (int n / 10))
   <-> (e = 0 \/ 50 * e < n)%Z).
Proof.
  intro He.
  set (x := int n / 10).
  assert (Hx : int n == 10 * x) by (unfold x; field).
  assert (Hm : 1 <= Qmax 1 x) by apply Q.le_max_l.
  rewrite Q.max_lt_iff.
  assert (Hq : 0.8 < 1 - int e / Qmax 1 x <-> int e < 0.2 * Qmax 1 x).
  { rewrite <- Qdiv_lt_iff by lra. split; intro; lra. }
  rewrite (int_lt (50 * e) n), int_mult. change (int 50) with 50.
  assert (Hcases : (e = 0 \/ 1 <= e)%Z) by lia.
  destruct Hcases as [->|H1].
  - change (int 0) with 0 in *. split; [intros _; left; reflexivity|].
    intros _. right. apply Hq. lra.
  - assert (H0 : e <> 0%Z) by lia.
    apply int_le in H1. change (int 1) with 1 in H1.
    destruct (Q.max_spec 1 x) as [[Hc E]|[Hc E]]; split.
    + intros [H|H]; [exfalso; lra|]. right. apply Hq in H. lra.
    + intros [H|H]; [contradiction|]. right. apply Hq. lra.
    + intros [H|H]; [exfalso; lra|]. right. apply Hq in H. lra.
    + intros [H|H]; [contradiction|]. right. apply Hq. lra.
Qed.

Lemma grammar_one_arith (e : Z) (m : Q) :
  (0 <= e)%Z -> 1 <= m ->
  (Qmax 0 (1 - int e / m) == 1 <-> e = 0%Z).
Proof.
  intros He Hm. split.
  - intro H.
    assert (Hcases : (e = 0 \/ 1 <= e)%Z) by lia.
    destruct Hcases as [E|H1]; [exact E|exfalso].
    apply int_le in H1. change (int 1) with 1 in H1.
    assert (Hq : 0 < int e / m) by (apply Qlt_shift_div_l; lra).
    destruct (Q.max_spec 0 (1 - int e / m)) as [[_ E]|[_ E]];
      rewrite E in H; lra.
  - intros ->. change (int 0) with 0.
    setoid_replace (0 / m) with 0 by (field; lra).
    apply Q.max_r. lra.
Qed.

Section GrammarFacts.

Variable isspace : char -> bool.
Variable isupper : char -> bool.

Lemma cap_error_eq (s : str) :
  cap_error isspace isupper s = Ok (first_not_upper isspace isupper s).
Proof.
  unfold cap_error, first_not_upper.
  destruct (strip isspace s); reflexivity.
Qed.

(** The Grammar-Perfection Score in closed form.  The errors are the
    occurrences of two spaces (the membership test before the count changes
    nothing) plus the pieces between full stops whose first non-blank
    character is not upper case.  The score is 1 exactly when there is no
    error, and the flag "perfect grammar" fires exactly when there is no
    error or the text has more than 50 tokens per error. *)
Theorem grammar_score_form (text : str) :
  let errors :=
    (count text (lit "  ")
     + len (filter (first_not_upper isspace isupper)
                   (split_on (lit "。") text)))%Z in
  let n := len (split isspace text) in
  exists g,
    check_grammar_perfection isspace isupper text = Ok g /\
    g = Qmax 0 (1 - int errors / Qmax 1 (int n / 10)) /\
    (g == 1 <-> errors = 0%Z) /\
    (Qgtb g 0.8 = true <-> (errors = 0 \/ 50 * errors < n)%Z).
Proof.
  intros errors n.
  assert (He : (0 <= errors)%Z).
  { subst errors. pose proof (count_nonneg text (lit "  ")).
    pose proof (len_nonneg (filter (first_not_upper isspace isupper)
                              (split_on (lit "。") text))). lia. }
  assert (Hguard :
            (if contains (lit "  ") text
             then (0 + count text (lit "  "))%Z else 0%Z)
            = count text (lit "  ")).
  { destruct (contains (lit "  ") text) eqn:E; [lia|].
    symmetry. apply count_absent; [discriminate|exact E]. }
  unfold check_grammar_perfection.
  rewrite (count_if_pure _ _ _ cap_error_eq). cbn [bind].
  rewrite Hguard. fold errors.
  rewrite token_floor_ok by (intro H; discriminate H). cbn [bind]. fold n.
  assert (Hm : 1 <= Qmax 1 (int n / 10)) by apply Q.le_max_l.
  rewrite truediv_ok by lra. cbn [bind].
  eexists. split; [reflexivity|]. split; [reflexivity|].
  split.
  - apply grammar_one_arith; assumption.
  - unfold Qgtb. rewrite Qltb_lt. apply grammar_flag_arith. exact He.
Qed.

End GrammarFacts.

(** ** The Structural-Regularity Score *)

Lemma split_on_aux_absent (sep : str) (s cur : str) :
  contains sep s = false -> split_on_aux sep 0 cur s = [rev cur ++ s].
Proof.
  revert cur.
  induction s as [|c s IH]; intros cur H; cbn [split_on_aux].
  - rewrite app_nil_r. reflexivity.
  - rewrite (contains_head _ _ H).
    rewrite (IH (c :: cur) (contains_tail _ _ _ H)).
    cbn [rev]. rewrite <- app_assoc. reflexivity.
Qed.

Lemma split_on_absent (sep : str) (s : str) :
  contains sep s = false -> split_on sep s = [s].
Proof.
  intro H. unfold split_on. rewrite split_on_aux_absent by exact H.
  reflexivity.
Qed.

Lemma sumQ_all_zero (l : list Q) :
  Forall (fun q => q == 0) l -> sumQ l == 0.
Proof.
  induction 1 as [|q l Hq _ IH].
  - reflexivity.
  - rewrite sumQ_cons, Hq, IH. lra.
Qed.

Lemma sumQ_constant (c : Z) (l : list Z) :
  (forall x, In x l -> x = c) -> sumQ (map int l) == int c * int (len l).
Proof.
  unfold len.
  induction l as [|x l IH]; intro H.
  - cbn. unfold sumQ. cbn. change (int 0) with 0. lra.
  - cbn [map]. rewrite sumQ_cons, IH by (intros y Hy; apply H; right; exact Hy).
    rewrite (H x (or_introl eq_refl)).
    cbn [length]. rewrite Nat2Z.inj_succ, <- Z.add_1_r, int_plus.
    change (int 1) with 1. lra.
Qed.

Section StructureFacts.

Variable isspace : char -> bool.

(** A text without the full stop "。" has at most one sentence, so its
    Structural-Regularity Score is 0 and its flag does not fire. *)
Theorem structure_without_full_stop (text : str) :
  contains (lit "。") text = false ->
  (len (sentences_of isspace text) <= 1)%Z /\
  analyze_structure isspace text = Ok 0 /\
  Qgtb 0 0.7 = false.
Proof.
  intro H.
  assert (Hlen : (len (sentences_of isspace text) <= 1)%Z).
  { unfold sentences_of. rewrite (split_on_absent _ _ H).
    unfold len. rewrite length_map. cbn [filter].
    destruct (truthy (strip isspace text)); cbn [length]; lia. }
  split; [exact Hlen|]. split; [|reflexivity].
  unfold analyze_structure.
  replace (len (sentences_of isspace text) <? 2)%Z with true
    by (symmetry; apply Z.ltb_lt; lia).
  reflexivity.
Qed.

(** Sentences that all have the same number of tokens give the score 1. *)
Theorem structure_equal_lengths (text : str) (c : Z) :
  (2 <= len (sentences_of isspace text))%Z ->
  (forall x, In x (sentence_lengths isspace text) -> x = c) ->
  yields (analyze_structure isspace text) 1.
Proof.
  intros H Hall.
  destruct (analyze_structure_eq isspace text H)
    as (v & m & Hv & Hm & _ & H1 & Heq).
  rewrite Heq. unfold yields.
  set (l := sentence_lengths isspace text) in *.
  assert (Hlen : 0 < int (len l)).
  { apply int_pos. unfold l, sentence_lengths, len in *.
    rewrite length_map. lia. }
  destruct l as [|x l'] eqn:El; [cbn in Hm; discriminate Hm|].
  rewrite <- El in *.
  assert (Em : m == int c).
  { assert (Hm' : Ok (sumQ (map int l) / int (len l)) = Ok m)
      by (rewrite <- Hm, El; reflexivity).
    injection Hm' as <-. rewrite (@sumQ_constant c l Hall). field. lra. }
  assert (Ev : v == 0).
  { assert (Hv' : Ok (sumQ (map (fun y => (int y - m) * (int y - m)) l)
                      / int (len l)) = Ok v).
    { rewrite <- Hv. unfold np_var. rewrite Hm. reflexivity. }
    injection Hv' as <-.
    rewrite sumQ_all_zero; [field; lra|].
    apply Forall_forall. intros q Hq. apply in_map_iff in Hq.
    destruct Hq as [y [<- Hy]]. rewrite (Hall y Hy), Em. ring. }
  rewrite Ev.
  setoid_replace (0 / (m + 1) / 3) with 0 by (field; lra).
  pose proof (Q.min_r 1 0) as Hmin. lra.
Qed.

End StructureFacts.

(** ** The Contraction Count *)

Lemma sumZ_zero_iff (l : list Z) :
  Forall (fun x => (0 <= x)%Z) l ->
  (sumZ l = 0%Z <-> Forall (fun x => x = 0%Z) l).
Proof.
  induction 1 as [|x l Hx Hl IH].
  - split; [constructor|reflexivity].
  - rewrite sumZ_cons. pose proof (sumZ_nonneg Hl) as Hs. split.
    + intro H. constructor; [lia|]. apply IH. lia.
    + intro H. inversion H as [|? ? Hx0 Hl0]; subst.
      apply IH in Hl0. lia.
Qed.

(** The Contraction Count is not negative, and it is 0 exactly when no
    contraction of the list occurs in the lowercased text. *)
Theorem contractions_zero_iff (lower : str -> str) (text : str) :
  (0 <= count_contractions lower text)%Z /\
  (count_contractions lower text = 0%Z
   <-> forall c, In c contractions -> contains c (lower text) = false).
Proof.
  unfold count_contractions.
  assert (Hpos : Forall (fun x => (0 <= x)%Z)
                        (map (fun c => count (lower text) c) contractions)).
  { apply Forall_forall. intros z Hz. apply in_map_iff in Hz.
    destruct Hz as [c [<- _]]. apply count_nonneg. }
  assert (Hne : forall c, In c contractions -> c <> []).
  { intros c Hc. vm_compute in Hc.
    repeat (destruct Hc as [<-|Hc]; [discriminate|]). contradiction. }
  split; [apply sumZ_nonneg, Hpos|].
  rewrite (sumZ_zero_iff Hpos), Forall_forall. split.
  - intros H c Hc.
    destruct (contains c (lower text)) eqn:E; [|reflexivity].
    apply (@count_positive_iff (lower text) c (Hne c Hc)) in E.
    specialize (H (count (lower text) c)
                  (in_map (fun c => count (lower text) c) contractions c Hc)).
    lia.
  - intros H z Hz. apply in_map_iff in Hz. destruct Hz as [c [<- Hc]].
    apply count_absent; [apply Hne, Hc|apply H, Hc].
Qed.

(** ** The table of the Repeated-Phrase Count *)

Lemma str_eqb_eq (a b : str) : str_eqb a b = true <-> a = b.
Proof.
  revert b.
  induction a as [|x a IH]; intros [|y b]; cbn [str_eqb].
  - split; reflexivity.
  - split; discriminate.
  - split; discriminate.
  - rewrite andb_true_iff, N.eqb_eq, IH. split.
    + intros [-> ->]. reflexivity.
    + intro H. injection H as -> ->. split; reflexivity.
Qed.

Lemma str_eqb_refl (a : str) : str_eqb a a = true.
Proof. apply str_eqb_eq. reflexivity. Qed.

Lemma str_eqb_neq (a b : str) : a <> b -> str_eqb a b = false.
Proof.
  intro H. destruct (str_eqb a b) eqn:E; [|reflexivity].
  apply str_eqb_eq in E. contradiction.
Qed.

Lemma dict_get_set {V} (d : dict V) (k k' : str) (v default : V) :
  dict_get (dict_set d k v) k' default
  = if str_eqb k k' then v else dict_get d k' default.
Proof.
  induction d as [|[k0 v0] d IH]; cbn [dict_set dict_get].
  - destruct (str_eqb k k'); reflexivity.
  - destruct (str_eqb k0 k) eqn:E0; cbn [dict_get].
    + apply str_eqb_eq in E0. subst k0.
      destruct (str_eqb k k'); reflexivity.
    + destruct (str_eqb k0 k') eqn:E1; [|exact IH].
      apply str_eqb_eq in E1. subst k0.
      rewrite (@str_eqb_neq k k'); [reflexivity|].
      intros ->. rewrite str_eqb_refl in E0. discriminate.
Qed.

Lemma keys_set_in {V} (d : dict V) (k k' : str) (v : V) :
  In k' (map fst (dict_set d k v)) <-> k' = k \/ In k' (map fst d).
Proof.
  induction d as [|[k0 v0] d IH]; cbn [dict_set map fst In].
  - split; [intros [H|[]]; left; congruence|intros [H|[]]; left; congruence].
  - destruct (str_eqb k0 k) eqn:E0; cbn [map fst In].
    + apply str_eqb_eq in E0. subst k0.
      split; [intro H; right; exact H|intros [->|H]; [left; reflexivity|exact H]].
    + rewrite IH. tauto.
Qed.

Lemma keys_set_nodup {V} (d : dict V) (k : str) (v : V) :
  NoDup (map fst d) -> NoDup (map fst (dict_set d k v)).
Proof.
  induction d as [|[k0 v0] d IH]; cbn [dict_set map fst]; intro H.
  - constructor; [intros []|constructor].
  - inversion H as [|? ? Hn Hd]; subst.
    destruct (str_eqb k0 k) eqn:E0; cbn [map fst].
    + constructor; assumption.
    + constructor; [|apply IH, Hd].
      rewrite keys_set_in. intros [->|Hin]; [|contradiction].
      rewrite str_eqb_refl in E0. discriminate.
Qed.

Lemma values_by_keys (d : dict Z) :
  NoDup (map fst d) ->
  values d = map (fun k => dict_get d k 0%Z) (map fst d).
Proof.
  unfold values.
  induction d as [|[k v] d IH]; cbn [map fst snd]; intro H.
  - reflexivity.
  - inversion H as [|? ? Hn Hd]; subst.
    cbn [dict_get]. rewrite str_eqb_refl. f_equal.
    rewrite (IH Hd). apply map_ext_in. intros k' Hk'.
    rewrite str_eqb_neq; [reflexivity|].
    intros ->. contradiction.
Qed.

Lemma tally_sum (d : dict Z) (w : str) :
  sumZ (values (tally d w)) = (sumZ (values d) + 1)%Z.
Proof.
  unfold tally, values.
  induction d as [|[k v] d IH]; cbn [dict_set dict_get map snd].
  - unfold sumZ. reflexivity.
  - destruct (str_eqb k w); cbn [map snd]; rewrite !sumZ_cons.
    + lia.
    + rewrite IH. lia.
Qed.

Lemma tally_positive (d : dict Z) (w : str) :
  Forall (fun x => (1 <= x)%Z) (values d) ->
  Forall (fun x => (1 <= x)%Z) (values (tally d w)).
Proof.
  unfold tally, values.
  induction d as [|[k v] d IH]; cbn [dict_set dict_get map snd]; intro H.
  - constructor; [lia|constructor].
  - inversion H as [|? ? Hv Hd]; subst.
    destruct (str_eqb k w); cbn [map snd]; constructor;
      try assumption; try lia.
    apply IH, Hd.
Qed.

Lemma phrase_table_fold (words : list str) :
  phrase_table words = fold_left tally (windows words) [].
Proof.
  unfold phrase_table, windows.
  generalize (range (len words - 2)) (@nil (str * Z)).
  intro l. induction l as [|i l IH]; intro d; cbn [fold_left map].
  - reflexivity.
  - apply IH.
Qed.

Lemma fold_tally_sum (ws : list str) (d : dict Z) :
  sumZ (values (fold_left tally ws d)) = (sumZ (values d) + len ws)%Z /\
  (Forall (fun x => (1 <= x)%Z) (values d) ->
   Forall (fun x => (1 <= x)%Z) (values (fold_left tally ws d))).
Proof.
  unfold len. revert d.
  induction ws as [|w ws IH]; intro d; cbn [fold_left length].
  - split; [lia|tauto].
  - destruct (IH (tally d w)) as [Hs Hp]. split.
    + rewrite Hs, tally_sum. lia.
    + intro H. apply Hp, tally_positive, H.
Qed.

Lemma fold_tally_get (ws : list str) (d : dict Z) (w : str) :
  dict_get (fold_left tally ws d) w 0%Z
  = (dict_get d w 0 + occurrences ws w)%Z.
Proof.
  unfold occurrences. revert d.
  induction ws as [|w0 ws IH]; intro d; cbn [fold_left count_occ].
  - lia.
  - rewrite IH. unfold tally at 1. rewrite dict_get_set.
    destruct (str_eq_dec w0 w) as [->|Hne].
    + rewrite str_eqb_refl. lia.
    + rewrite (str_eqb_neq Hne). lia.
Qed.

Lemma fold_tally_keys (ws : list str) (d : dict Z) :
  (NoDup (map fst d) -> NoDup (map fst (fold_left tally ws d))) /\
  (forall w, In w (map fst (fold_left tally ws d))
             <-> In w (map fst d) \/ In w ws).
Proof.
  revert d.
  induction ws as [|w0 ws IH]; intro d; cbn [fold_left In].
  - split; [tauto|intro w; tauto].
  - destruct (IH (tally d w0)) as [Hn Hk]. split.
    + intro H. apply Hn. unfold tally. apply keys_set_nodup, H.
    + intro w. rewrite Hk. unfold tally. rewrite keys_set_in.
      split; [intros [[->|H]|H]|intros [H|[->|H]]]; tauto.
Qed.

Lemma filter_map_length {A B} (p : B -> bool) (f : A -> B) (l : list A) :
  len (filter p (map f l)) = len (filter (fun x => p (f x)) l).
Proof.
  unfold len.
  induction l as [|x l IH]; cbn [map filter]; [reflexivity|].
  destruct (p (f x)); cbn [length]; lia.
Qed.

Lemma frequent_bound (l : list Z) :
  Forall (fun x => (1 <= x)%Z) l ->
  (3 * len (filter (fun x => (2 <? x)%Z) l) <= sumZ l)%Z.
Proof.
  unfold len.
  induction 1 as [|x l Hx _ IH]; cbn [filter].
  - unfold sumZ. cbn. lia.
  - rewrite sumZ_cons.
    destruct (2 <? x)%Z eqn:E; cbn [length].
    + apply Z.ltb_lt in E. lia.
    + lia.
Qed.

Lemma windows_length (words : list str) :
  len (windows words) = Z.max 0 (len words - 2).
Proof.
  unfold windows, range, len. rewrite !length_map, length_seq. lia.
Qed.

Section RepeatedPhrases.

Variable lower : str -> str.
Variable isspace : char -> bool.

Lemma count_repeated_phrases_table (text : str) :
  count_repeated_phrases lower isspace text
  = len (filter (fun x => (2 <? x)%Z)
                (values (phrase_table (split isspace (lower text))))).
Proof.
  unfold count_repeated_phrases. rewrite sumZ_ones.
  destruct (len (split isspace (lower text)) <? 3)%Z eqn:E; [|reflexivity].
  apply Z.ltb_lt in E.
  unfold phrase_table, range.
  replace (Z.to_nat (len (split isspace (lower text)) - 2)) with 0%nat
    by lia.
  reflexivity.
Qed.

(** The Repeated-Phrase Count is the number of distinct three-word windows
    of the lowercased text that occur more than twice: the table holds each
    window once, with its number of occurrences.  The early return for
    fewer than three tokens agrees with this. *)
Theorem repeated_phrases_counts (text : str) :
  let ws := windows (split isspace (lower text)) in
  let table := phrase_table (split isspace (lower text)) in
  NoDup (map fst table) /\
  (forall w, In w (map fst table) <-> In w ws) /\
  (forall w, dict_get table w 0%Z = occurrences ws w) /\
  count_repeated_phrases lower isspace text
  = len (filter (fun w => (2 <? occurrences ws w)%Z) (map fst table)).
Proof.
  intros ws table.
  assert (Et : table = fold_left tally ws []) by apply phrase_table_fold.
  destruct (fold_tally_keys ws []) as [Hn Hk].
  assert (Hnd : NoDup (map fst table))
    by (rewrite Et; apply Hn; constructor).
  assert (Hget : forall w, dict_get table w 0%Z = occurrences ws w).
  { intro w. rewrite Et, fold_tally_get. cbn [dict_get]. lia. }
  split; [exact Hnd|]. split.
  - intro w. rewrite Et, Hk. cbn [map In]. tauto.
  - split; [exact Hget|].
    rewrite count_repeated_phrases_table. fold table.
    rewrite (values_by_keys table Hnd), filter_map_length.
    f_equal. apply filter_ext. intro w. rewrite Hget. reflexivity.
Qed.

(** Three times the Repeated-Phrase Count is at most the number of
    windows, so the flag "many repeated phrases" (count > 3) needs a text
    of at least 14 tokens. *)
Theorem repeated_phrases_bound (text : str) :
  let words := split isspace (lower text) in
  (3 * count_repeated_phrases lower isspace text
   <= Z.max 0 (len words - 2))%Z /\
  ((3 <? count_repeated_phrases lower isspace text)%Z = true ->
   (14 <= len words)%Z).
Proof.
  intro words.
  assert (H : (3 * count_repeated_phrases lower isspace text
               <= Z.max 0 (len words - 2))%Z).
  { rewrite count_repeated_phrases_table. fold words.
    rewrite phrase_table_fold.
    destruct (fold_tally_sum (windows words) []) as [Hs Hp].
    eapply Z.le_trans; [apply frequent_bound, Hp; constructor|].
    rewrite Hs, windows_length. unfold values, sumZ. cbn. lia. }
  split; [exact H|].
  intro Hf. apply Z.ltb_lt in Hf. lia.
Qed.

End RepeatedPhrases.

(** * The further properties on concrete texts, on Basic Latin *)

Lemma sensitivity_monotone_witness :
  0.6 <= 0.9 /\
  exists a1 h1 a2 h2 d,
    analyze_text latin_lower latin_isspace latin_isupper opinion_text 0.6
    = Ok (a1, h1, d) /\
    analyze_text latin_lower latin_isspace latin_isupper opinion_text 0.9
    = Ok (a2, h2, d) /\
    a1 <= a2 /\ h2 <= h1.
Proof.
  assert (H : 0.6 <= 0.9) by (vm_compute; discriminate).
  split; [exact H|].
  destruct (@sensitivity_monotone latin_lower latin_isspace latin_isupper
              opinion_text 0.6 0.9 H)
    as (a1 & h1 & a2 & h2 & d & E1 & E2 & Ha & Hh & _).
  exists a1, h1, a2, h2, d. repeat (split; [assumption|]). exact Hh.
Defined.

Lemma low_sensitivity_banner_witness :
  0.6 < 0.75 /\
  (on_analyze latin_lower latin_isspace latin_isupper formulaic_text 0.6
   = Ok Rejected \/
   exists a h d v,
     on_analyze latin_lower latin_isspace latin_isupper formulaic_text 0.6
     = Ok (Report a h d v) /\
     a < 0.75 /\ v <> HighlyLikelyAI).
Proof.
  assert (H : 0.6 < 0.75) by (vm_compute; reflexivity).
  split; [exact H|].
  exact (@low_sensitivity_banner latin_lower latin_isspace latin_isupper
           formulaic_text 0.6 H).
Defined.

Lemma no_flag_baseline_witness :
  exists a h d,
    analyze_text latin_lower latin_isspace latin_isupper plain_text 0.8
    = Ok (a, h, d) /\
    Forall (fun flag => snd flag = false)
           (ai_features d ++ human_features d) /\
    0.75 <= 0.8 <= 0.85 /\
    a == 3 # 5 /\ conclusion a = PossiblyAI.
Proof.
  destruct (analyze_text latin_lower latin_isspace latin_isupper
              plain_text 0.8) as [[[a h] d]|e] eqn:Ha;
    [|vm_compute in Ha; discriminate Ha].
  pose proof Ha as Hc. vm_compute in Hc. injection Hc as _ _ Ed.
  assert (HF : Forall (fun flag => snd flag = false)
                      (ai_features d ++ human_features d))
    by (rewrite <- Ed; vm_compute; repeat constructor).
  assert (Hs : 0.75 <= 0.8 <= 0.85) by (split; vm_compute; discriminate).
  exists a, h, d.
  split; [reflexivity|]. split; [exact HF|]. split; [exact Hs|].
  destruct (@no_flag_baseline latin_lower latin_isspace latin_isupper
              plain_text 0.8 a h d Ha HF) as (p & _ & _ & Hmid).
  exact (Hmid Hs).
Defined.

Lemma structure_without_full_stop_witness :
  contains (lit "。") opinion_text = false /\
  analyze_structure latin_isspace opinion_text = Ok 0.
Proof.
  assert (H : contains (lit "。") opinion_text = false)
    by (vm_compute; reflexivity).
  split; [exact H|].
  apply (@structure_without_full_stop latin_isspace opinion_text H).
Defined.

Lemma structure_equal_lengths_witness :
  (2 <= len (sentences_of latin_isspace two_sentence_text))%Z /\
  sentence_lengths latin_isspace two_sentence_text = [2%Z; 2%Z] /\
  yields (analyze_structure latin_isspace two_sentence_text) 1.
Proof.
  assert (H : (2 <= len (sentences_of latin_isspace two_sentence_text))%Z)
    by (vm_compute; discriminate).
  assert (E : sentence_lengths latin_isspace two_sentence_text
              = [2%Z; 2%Z]) by (vm_compute; reflexivity).
  split; [exact H|]. split; [exact E|].
  apply (@structure_equal_lengths latin_isspace two_sentence_text 2 H).
  intros x Hx. rewrite E in Hx.
  destruct Hx as [<-|[<-|[]]]; reflexivity.
Defined.

Lemma repeated_phrases_bound_witness :
  (3 <? count_repeated_phrases latin_lower latin_isspace formulaic_text)%Z
  = true /\
  (14 <= len (split latin_isspace (latin_lower formulaic_text)))%Z.
Proof.
  assert (H : (3 <? count_repeated_phrases latin_lower latin_isspace
                                           formulaic_text)%Z = true)
    by (vm_compute; reflexivity).
  split; [exact H|].
  exact (proj2 (@repeated_phrases_bound latin_lower latin_isspace
                  formulaic_text) H).
Defined.
